(** * Z80 emulator: the address-windowed memory block [z80::memory<BEGIN, END>]

    A shallow embedding of [memory.h] (the class template compiled by
    [main.cpp]) and of [main], together with the properties of the
    constructors, the accessors, [fill], [randomize], [load], [save] and the
    hex/ASCII [dump].  An earlier revision of the same header is embedded in
    [Module Legacy]. *)

From Stdlib Require Import ZArith Lia List Strings.Ascii Strings.String Strings.Byte.
From Stdlib Require Import DecimalString.
From stdpp Require Import base list gmap strings.

Local Open Scope Z_scope.

(** ** Machine integers *)

(** A value reduced to an unsigned integer type of [w] bits. *)
Definition wrap (w : Z) (x : Z) : Z := x mod 2 ^ w.

(** Modelled from the spec: [z80_memory_types.h], which declares [address_t]
    and [byte_t], is not among the sources.  The spec stores "unsigned 8-bit
    values" and labels rows with a 4-hex-digit address, so [byte_t] is an
    unsigned 8-bit integer and [address_t] an unsigned 16-bit integer (the
    Z80 address bus).  Being narrower than [int], [address_t] operands are
    promoted to [int] in arithmetic, and only assignments back to an
    [address_t] variable wrap. *)
Definition to_address (x : Z) : Z := wrap 16 x.

(** Conversion to [size_t] (64 bits). *)
Definition to_size_t (x : Z) : Z := wrap 64 x.

(** The values an [address_t] variable can hold. *)
Definition is_address (a : Z) : Prop := 0 <= a < 65536.

(** Conversion of an integer to [byte_t]. *)
Definition to_byte (x : Z) : byte :=
  match Byte.of_N (Z.to_N (wrap 8 x)) with
  | Some b => b
  | None => x00
  end.

Definition byte_val (b : byte) : Z := Z.of_N (Byte.to_N b).

(** ** Exceptions and outcomes *)

(** The exceptions of [memory.h], named by the error kind each throw site
    stands for: [std::out_of_range] from [std::array::at], the
    [std::runtime_error]s " memory overflow: requested ... size", "file not
    found", the file-size test of [load], and "file already exists", and the
    [std::filesystem::filesystem_error] that [std::filesystem::file_size]
    throws in [load]. *)
Inductive exn : Set :=
| OutOfRange
| Overflow
| NotFound
| SizeMismatch
| AlreadyExists
| FilesystemError.

(** How a call ends: it returns, it throws, its behaviour is undefined
    ([Undefined]: a raw read outside the array), or its loop is still running
    when the model's iteration budget is spent ([Running]). *)
Inductive outcome (A : Type) : Type :=
| Ok (a : A)
| Throw (e : exn)
| Undefined
| Running.

Arguments Ok {A} a.
Arguments Throw {A} e.
Arguments Undefined {A}.
Arguments Running {A}.

(** State-and-exception monad: the state survives a throw, as the partial
    effects of a C++ call do. *)
Definition M (S A : Type) : Type := S -> S * outcome A.

Definition ret {S A} (a : A) : M S A := fun s => (s, Ok a).

Definition bind {S A B} (c : M S A) (k : A -> M S B) : M S B :=
  fun s =>
    match c s with
    | (s', Ok a) => k a s'
    | (s', Throw e) => (s', Throw e)
    | (s', Undefined) => (s', Undefined)
    | (s', Running) => (s', Running)
    end.

Definition throw {S A} (e : exn) : M S A := fun s => (s, Throw e).

(** Lift a pure computation that may throw. *)
Definition lift {S A} (o : outcome A) : M S A := fun s => (s, o).

Notation "x <- c ;; k" := (bind c (fun x => k))
  (at level 100, c at next level, right associativity).
Notation "c ;;; k" := (bind c (fun _ => k))
  (at level 100, right associativity).

(** [for (i = from; i < from + n; ++i) body(i)] for a loop whose trip count
    [n] is known on entry. *)
Fixpoint for_each {S} (n : nat) (from : Z) (body : Z -> M S unit) : M S unit :=
  match n with
  | O => ret tt
  | S n' => body from ;;; for_each n' (from + 1) body
  end.

(** ** Text output: [std::format] and [std::cout] *)

(** The digit characters of upper-case hexadecimal. *)
Definition hex_digit (d : Z) : ascii :=
  if d <? 10 then ascii_of_nat (Z.to_nat (48 + d))
  else ascii_of_nat (Z.to_nat (55 + d)).

(** Shortest upper-case hexadecimal numeral of [n], most significant digit
    first; [fuel] bounds the number of digits. *)
Fixpoint hex_digits (fuel : nat) (n : Z) (acc : string) : string :=
  match fuel with
  | O => acc
  | S fuel' =>
      let acc' := String (hex_digit (n mod 16)) acc in
      if n / 16 =? 0 then acc' else hex_digits fuel' (n / 16) acc'
  end.

Definition hex_upper (n : Z) : string :=
  hex_digits (S (Z.to_nat (Z.log2 n))) n EmptyString.

Fixpoint zeros (k : nat) : string :=
  match k with
  | O => EmptyString
  | S k' => String "0" (zeros k')
  end.

(** [std::format("{:0wX}", n)] for an unsigned [n]: the shortest numeral,
    padded on the left with zeros to at least [w] characters. *)
Definition format_0X (w : nat) (n : Z) : string :=
  let s := hex_upper n in
  zeros (w - String.length s) +:+ s.

Definition newline : string := String "010" EmptyString.

(** [std::cout << s] with the text written so far as the state. *)
Definition print (s : string) : M string unit :=
  fun out => (out +:+ s, Ok tt).

(** [char c = b;] on a platform whose plain [char] is signed.  (With an
    unsigned [char] the value is [byte_val b]; the test in [printable_or_dot]
    has the same result for both.) *)
Definition to_char (b : byte) : Z :=
  if byte_val b <? 128 then byte_val b else byte_val b - 256.

(** [std::array::at] on an array of [length bs] elements, read access. *)
Definition at_ (bs : list byte) (pos : Z) : outcome byte :=
  match bs !! Z.to_nat pos with
  | Some b => Ok b
  | None => Throw OutOfRange
  end.

(** [bytes->at(pos) = b]. *)
Definition at_put (bs : list byte) (pos : Z) (b : byte) : outcome (list byte) :=
  if decide (Z.to_nat pos < length bs)%nat
  then Ok (<[Z.to_nat pos := b]> bs)
  else Throw OutOfRange.

(** [std::cout << n] for an unsigned integer: its decimal numeral. *)
Definition decimal (n : Z) : string :=
  NilZero.string_of_uint (N.to_uint (Z.to_N n)).

(** ** The earlier revision of the header

    The parts of the first [memory.h] that the current one rewrote: the
    accessors and [fill], whose loop counts from zero. *)
Module Legacy.
Section Memory.

Variables BEGIN END : Z.

(** The only data member that holds memory contents: [mem bytes]. *)
Record memory : Type := mk_memory {
  bytes : list byte
}.

Definition on_bytes (f : list byte -> outcome (list byte)) : M memory unit :=
  fun m =>
    match f (bytes m) with
    | Ok bs => (mk_memory bs, Ok tt)
    | Throw e => (m, Throw e)
    | Undefined => (m, Undefined)
    | Running => (m, Running)
    end.

(** [size_t size() const { return bytes->size(); }] *)
Definition size (m : memory) : Z := Z.of_nat (length (bytes m)).

(** [byte_t operator[](address_t addr) const]: [addr - BEGIN] is an [int],
    converted to [size_t] by [at]. *)
Definition read (m : memory) (addr : Z) : outcome byte :=
  at_ (bytes m) (to_size_t (addr - BEGIN)).

(** [byte_t& operator[](address_t addr)] and the assignment through it. *)
Definition write (m : memory) (addr : Z) (v : byte) : outcome memory :=
  match at_put (bytes m) (to_size_t (addr - BEGIN)) v with
  | Ok bs => Ok (mk_memory bs)
  | Throw e => Throw e
  | Undefined => Undefined
  | Running => Running
  end.

(** [void fill(address_t begin, address_t end, byte_t b) const]:
    [for (auto i{ 0 }; i < end; ++i) bytes->at(begin + i) = b;] after
    [end -= begin; begin -= BEGIN;]. *)
Definition fill (begin end_ : Z) (b : byte) : M memory unit :=
  let end_ := to_address (end_ - begin) in
  let begin := to_address (begin - BEGIN) in
  for_each (Z.to_nat end_) 0 (fun i =>
    on_bytes (fun bs => at_put bs (to_size_t (begin + i)) b)).

(** [bytes(new byte_array{})]: the zeroed array of [END - BEGIN + 1]
    elements. *)
Definition initial : memory :=
  mk_memory (replicate (Z.to_nat (to_size_t (END - BEGIN + 1))) x00).

(** [memory()]: [bytes->at(addr) = distribution(rand) % 255] for every
    [addr] below [size()], where [draw addr] is the value the generator
    returns in the iteration for [addr]. *)
Definition memory_random (draw : Z -> Z) : outcome memory :=
  match for_each (Z.to_nat (size initial)) 0 (fun addr =>
          on_bytes (fun bs => at_put bs (to_size_t addr)
                                (to_byte (draw addr mod 255)))) initial with
  | (m, Ok _) => Ok m
  | (_, Throw e) => Throw e
  | (_, Undefined) => Undefined
  | (_, Running) => Running
  end.

(** The character test of the earlier [dump_paragraph]:
    [if ((c == 127) || (c >= 0) && (c < 32)) '.' else c]. *)
Definition printable_or_dot (b : byte) : ascii :=
  let c := to_char b in
  if (c =? 127) || ((c >=? 0) && (c <? 32)) then "."%char
  else ascii_of_byte b.

(** [void dump_paragraph(address_t addr) const], always sixteen columns. *)
Definition dump_paragraph (m : memory) (addr : Z) : M string unit :=
  print ("$" +:+ format_0X 4 addr +:+ " ") ;;;
  let addr := to_address (addr - BEGIN) in
  for_each 16 0 (fun i =>
    b <- lift (at_ (bytes m) (to_size_t (addr + i))) ;;
    print (format_0X 2 (byte_val b) +:+ " ")) ;;;
  print "| " ;;;
  for_each 16 0 (fun i =>
    c <- lift (at_ (bytes m) (to_size_t (addr + i))) ;;
    print (String (printable_or_dot c) EmptyString)) ;;;
  print (" |" +:+ newline).

(** [for (auto i{ begin }; i < end; i += 16) dump_paragraph(i);] with [i] an
    [address_t]. *)
Fixpoint dump_loop (fuel : nat) (m : memory) (i end_ : Z) : M string unit :=
  match fuel with
  | O => lift Running
  | S fuel' =>
      if i <? end_
      then dump_paragraph m i ;;; dump_loop fuel' m (to_address (i + 16)) end_
      else ret tt
  end.

(** [void dump(address_t begin, address_t end) const]: no test of the span.
    The counter has 4096 values, as in the current header. *)
Definition dump (m : memory) (begin end_ : Z) : M string unit :=
  dump_loop (Z.to_nat 4097) m begin end_.

(** [while (f.get(b)) bytes->at(addr++) = b;] over the characters the stream
    delivers, [addr] an [address_t]; the result is the final [addr]. *)
Fixpoint get_chars (cs : list byte) (addr : Z) (bs : list byte)
  : list byte * outcome Z :=
  match cs with
  | [] => (bs, Ok addr)
  | c :: cs' =>
      match at_put bs (to_size_t addr) c with
      | Ok bs' => get_chars cs' (to_address (addr + 1)) bs'
      | Throw e => (bs, Throw e)
      | Undefined => (bs, Undefined)
      | Running => (bs, Running)
      end
  end.

(** [memory(std::string filename)], with the standard output as the state.
    The file is opened in text mode: [text_mode data] is the sequence of
    characters the stream delivers for a file holding [data] (the bytes
    themselves where text mode translates nothing). *)
Definition memory_file (text_mode : list byte -> list byte)
    (fs : gmap string (list byte)) (filename : string) : M string memory :=
  match fs !! filename with
  | None => throw NotFound
  | Some data =>
      let fsize := Z.of_nat (length data) in
      if size initial <? fsize then throw SizeMismatch
      else
        match get_chars (text_mode data) 0 (bytes initial) with
        | (bs, Ok addr) => print (decimal addr +:+ newline) ;;; ret (mk_memory bs)
        | (_, Throw e) => throw e
        | (_, Undefined) => lift Undefined
        | (_, Running) => lift Running
        end
  end.

End Memory.
End Legacy.

(** ** The class template *)

Section Memory.

(** Template parameters [BEGIN] and [END]. *)
Variables BEGIN END : Z.

(** [static const size_t PARAGRAPH = 16;] *)
Definition PARAGRAPH : Z := 16.

Definition ASCII_NULL : Z := 0.
Definition ASCII_SPACE : Z := 32.
Definition ASCII_DEL : Z := 127.

(** [size()]: [END - BEGIN + 1], computed in [int], returned as [size_t]. *)
Definition size : Z := to_size_t (END - BEGIN + 1).

Definition address_begin : Z := BEGIN.
Definition address_end : Z := END.

(** Data members: [column_count] and the array behind [bytes], a
    [std::array<byte_t, END - BEGIN + 1>] held as the list of its elements. *)
Record memory : Type := mk_memory {
  column_count : Z;
  bytes : list byte
}.

(** [byte_t operator[](address_t addr) const] *)
Definition read (m : memory) (addr : Z) : outcome byte :=
  at_ (bytes m) (to_size_t (addr - BEGIN)).

(** [byte_t& operator[](address_t addr)], followed by the assignment of [v]
    through the returned reference. *)
Definition write (m : memory) (addr : Z) (v : byte) : outcome memory :=
  match at_put (bytes m) (to_size_t (addr - BEGIN)) v with
  | Ok bs => Ok (mk_memory (column_count m) bs)
  | Throw e => Throw e
  | Undefined => Undefined
  | Running => Running
  end.

(** A method working on the array only. *)
Definition on_bytes (f : list byte -> outcome (list byte)) : M memory unit :=
  fun m =>
    match f (bytes m) with
    | Ok bs => (mk_memory (column_count m) bs, Ok tt)
    | Throw e => (m, Throw e)
    | Undefined => (m, Undefined)
    | Running => (m, Running)
    end.

(** The character [dump_paragraph] prints for a stored byte:
    [if ((c == ASCII_DEL) || (c >= ASCII_NULL) && (c < ASCII_SPACE)) '.' else c]. *)
Definition printable_or_dot (b : byte) : ascii :=
  let c := to_char b in
  if (c =? ASCII_DEL) || ((c >=? ASCII_NULL) && (c <? ASCII_SPACE))
  then "."%char
  else ascii_of_byte b.

(** [void dump_paragraph(address_t addr) const].  The two inner loops run
    [column_count] times (their counter is an [address_t]; [column_count]
    never exceeds [PARAGRAPH]). *)
Definition dump_paragraph (m : memory) (addr : Z) : M string unit :=
  print ("$" +:+ format_0X 4 addr +:+ " ") ;;;
  let addr := to_address (addr - BEGIN) in
  for_each (Z.to_nat (column_count m)) 0 (fun i =>
    b <- lift (at_ (bytes m) (to_size_t (addr + i))) ;;
    print (format_0X 2 (byte_val b) +:+ " ")) ;;;
  print "| " ;;;
  for_each (Z.to_nat (column_count m)) 0 (fun i =>
    c <- lift (at_ (bytes m) (to_size_t (addr + i))) ;;
    print (String (printable_or_dot c) EmptyString)) ;;;
  print (" |" +:+ newline).

(** The loop of [dump]: [for (auto i{ begin }; i < end; i += PARAGRAPH)],
    with [i] an [address_t], so that [i += PARAGRAPH] wraps at 16 bits. *)
Fixpoint dump_loop (fuel : nat) (m : memory) (i end_ : Z) : M string unit :=
  match fuel with
  | O => lift Running
  | S fuel' =>
      if i <? end_
      then dump_paragraph m i ;;; dump_loop fuel' m (to_address (i + PARAGRAPH)) end_
      else ret tt
  end.

(** The counter of [dump_loop] moves in steps of 16 modulo 65536 and the
    method is [const]: after 4096 rows the counter is back where it began
    with the same memory, so a loop that has not ended by then never does. *)
Definition dump_budget : nat := Z.to_nat 4097.

(** [void dump(address_t begin = BEGIN, address_t end = END + 1) const] *)
Definition dump (m : memory) (begin end_ : Z) : M string unit :=
  let dump_size := end_ - begin in
  if to_size_t dump_size >? size then throw Overflow
  else dump_loop dump_budget m begin end_.

(** [void fill(byte_t b, address_t begin = BEGIN, address_t end = END + 1)].
    [end -= begin] and [begin -= BEGIN] are assignments to [address_t]
    variables; [fill_size] is an [int], converted to [size_t] for the test.
    The loop counter starts at the new [begin] and stops before the new
    [end]. *)
Definition fill (b : byte) (begin end_ : Z) : M memory unit :=
  let end_ := to_address (end_ - begin) in
  let begin := to_address (begin - BEGIN) in
  let fill_size := end_ - begin in
  if to_size_t fill_size >? size then throw Overflow
  else
    for_each (Z.to_nat (end_ - begin)) begin (fun i =>
      on_bytes (fun bs => at_put bs (to_size_t (begin + i)) b)).

(** The default arguments [begin = BEGIN, end = END + 1]. *)
Definition default_begin : Z := BEGIN.
Definition default_end : Z := to_address (END + 1).

(** What a path that exists names: a regular file with its bytes, or
    something that is no regular file, such as a directory. *)
Inductive node : Type :=
| Regular (data : list byte)
| Directory.

(** The file system: what exists, by path.  [std::filesystem::exists] holds
    of the paths in the map. *)
Definition filesystem : Type := gmap string node.

(** [void load(const std::string& filename)].  [std::filesystem::file_size]
    throws for a path that is no regular file.  [f.open] is not checked:
    whether the input stream opens on the file is for the environment to
    decide (the permissions, say), and [opens filename] tells which way it
    goes.  On a stream that opened, [f.read] copies [size()] bytes of the file
    over the beginning of the array; on one that did not, [f.read] and
    [f.close] do nothing and the call returns with the array as it was. *)
Definition load (opens : string -> bool) (fs : filesystem) (filename : string)
  : M memory unit :=
  match fs !! filename with
  | None => throw NotFound
  | Some Directory => throw FilesystemError
  | Some (Regular data) =>
      let file_size := Z.of_nat (length data) in
      if file_size <? size then throw SizeMismatch
      else if opens filename then
        on_bytes (fun bs =>
          Ok (take (Z.to_nat size) data ++ drop (Z.to_nat size) bs))
      else ret tt
  end.

(** [void randomize(uint32_t min = 0, uint32_t max = 255)], where
    [draw addr] is the value [distribution(rand)] returns in the iteration
    for [addr].  The sum is reduced to [byte_t] on assignment.  (A divisor
    [max - min + 1] of zero is undefined in the source and has no meaning
    here.) *)
Definition randomize (draw : Z -> Z) (min max : Z) : M memory unit :=
  for_each (Z.to_nat size) 0 (fun addr =>
    on_bytes (fun bs =>
      at_put bs (to_size_t addr)
        (to_byte (min + draw addr mod wrap 32 (max - min + 1))))).

(** [void save(const std::string& filename, address_t begin = BEGIN,
    address_t end = END + 1) const], with the file system as the state.
    [f.open] is not checked: whether the output stream opens on the fresh
    path is for the environment to decide (the directory may be missing or
    closed to writing), and [opens filename] tells which way it goes.  A
    stream that opened has created the file, empty, before [f.write] reads
    [save_size] bytes from [bytes->data() + begin] without a bounds check:
    outside the array this is undefined.  On a stream that did not open,
    [f.write] reads nothing and no file appears; the pointer
    [bytes->data() + begin] is formed all the same, which is undefined beyond
    the end of the array. *)
Definition save (opens : string -> bool) (m : memory) (filename : string)
    (begin end_ : Z) : M filesystem unit :=
  let save_size := end_ - begin in
  let begin := to_address (begin - BEGIN) in
  if to_size_t save_size >? size then throw Overflow
  else fun fs =>
    match fs !! filename with
    | None =>
        if opens filename then
          if begin + save_size <=? Z.of_nat (length (bytes m))
          then (<[filename := Regular (take (Z.to_nat save_size)
                                         (drop (Z.to_nat begin) (bytes m)))]> fs,
                Ok tt)
          else (<[filename := Regular []]> fs, Undefined)
        else
          if begin <=? Z.of_nat (length (bytes m))
          then (fs, Ok tt)
          else (fs, Undefined)
    | Some _ => (fs, Throw AlreadyExists)
    end.

(** The member initialisers shared by the three constructors:
    [column_count((size() < PARAGRAPH) ? size() : PARAGRAPH)] and
    [bytes(new byte_array_t{})], a zeroed array. *)
Definition initial : memory :=
  mk_memory (if size <? PARAGRAPH then size else PARAGRAPH)
            (replicate (Z.to_nat size) x00).

(** A constructor: the initialisers, then the body; an exception of the body
    leaves no object. *)
Definition construct (body : M memory unit) : outcome memory :=
  match body initial with
  | (m, Ok _) => Ok m
  | (_, Throw e) => Throw e
  | (_, Undefined) => Undefined
  | (_, Running) => Running
  end.

(** [memory()] *)
Definition memory_random (draw : Z -> Z) : outcome memory :=
  construct (randomize draw 0 255).

(** [memory(byte_t b)] *)
Definition memory_byte (b : byte) : outcome memory :=
  construct (fill b default_begin default_end).

(** [memory(const std::string& filename)] *)
Definition memory_file (opens : string -> bool) (fs : filesystem)
    (filename : string) : outcome memory :=
  construct (load opens fs filename).

(** ** Specification-side definitions *)

(** Exactly [w] upper-case hexadecimal digits of [n], most significant
    first. *)
Fixpoint hex_fixed (w : nat) (n : Z) : string :=
  match w with
  | O => EmptyString
  | S w' => String (hex_digit ((n / 16 ^ Z.of_nat w') mod 16)) (hex_fixed w' n)
  end.

(** The character column of the dump format: bytes equal to 0-31 or 127 are
    shown as a dot, every other byte as its own character. *)
Definition char_or_dot (b : byte) : ascii :=
  if (byte_val b <=? 31) || (byte_val b =? 127) then "."%char
  else ascii_of_byte b.

Fixpoint concat_text (l : list string) : string :=
  match l with
  | [] => EmptyString
  | s :: l' => s +:+ concat_text l'
  end.

Fixpoint string_of_chars (l : list ascii) : string :=
  match l with
  | [] => EmptyString
  | c :: l' => String c (string_of_chars l')
  end.

(** The row format: ["${AAAA} "], ["{BB} "] for each column, ["| "], the
    character or a dot for each column, [" |"] and a line break. *)
Definition row_text (addr : Z) (row : list byte) : string :=
  "$" +:+ hex_fixed 4 addr +:+ " " +:+
  concat_text (map (fun b => hex_fixed 2 (byte_val b) +:+ " ") row) +:+
  "| " +:+ string_of_chars (map char_or_dot row) +:+ " |" +:+ newline.

(** The bytes stored at the [n] addresses [addr], [addr + 1], ... *)
Definition stored (m : memory) (a : Z) : byte :=
  match read m a with
  | Ok b => b
  | _ => x00
  end.

Definition row_bytes (m : memory) (addr : Z) (n : nat) : list byte :=
  (fun k => stored m (addr + Z.of_nat k)) <$> seq 0 n.

(** The addresses of [n] successive rows from [begin]. *)
Definition row_addresses (begin : Z) (n : nat) : list Z :=
  (fun k => begin + PARAGRAPH * Z.of_nat k) <$> seq 0 n.

(** The class invariant: the array has [size()] elements and the column
    count is the smaller of [size()] and [PARAGRAPH]. *)
Definition memory_inv (m : memory) : Prop :=
  length (bytes m) = Z.to_nat size /\ column_count m = Z.min size PARAGRAPH.

(** Two blocks hold the same bytes at every address of [[begin, end_)]. *)
Definition agree_on (m1 m2 : memory) (begin end_ : Z) : Prop :=
  forall a, begin <= a < end_ -> read m1 a = read m2 a.

(** [n] successive elements of an array from index [start] overwritten with
    [b], one assignment after the other. *)
Fixpoint put_range (bs : list byte) (start n : nat) (b : byte) : list byte :=
  match n with
  | O => bs
  | S n' => put_range (<[start := b]> bs) (S start) n' b
  end.

(** The blocks a program can hold: those a constructor returned, and those
    obtained from them by the mutating members, however a call ended. *)
Inductive built : memory -> Prop :=
| built_random (draw : Z -> Z) (m : memory) :
    memory_random draw = Ok m -> built m
| built_byte (b : byte) (m : memory) :
    memory_byte b = Ok m -> built m
| built_file (opens : string -> bool) (fs : filesystem) (filename : string)
    (m : memory) :
    memory_file opens fs filename = Ok m -> built m
| built_write (m m' : memory) (a : Z) (v : byte) :
    built m -> write m a v = Ok m' -> built m'
| built_fill (m : memory) (b : byte) (begin end_ : Z) :
    built m -> built (fst (fill b begin end_ m))
| built_randomize (m : memory) (draw : Z -> Z) (lo hi : Z) :
    built m -> built (fst (randomize draw lo hi m))
| built_load (m : memory) (opens : string -> bool) (fs : filesystem)
    (filename : string) :
    built m -> built (fst (load opens fs filename m)).

(** One column of a row: fetch the element at [off + i], print its text. *)
Definition column (bs : list byte) (off : Z) (show : byte -> string) (i : Z)
  : M string unit :=
  b <- lift (at_ bs (to_size_t (off + i))) ;; print (show b).

(** The way a call ended, without the value it returned. *)
Inductive ending : Set :=
| Returned
| Thrown (e : exn)
| Undefined_behaviour
| Still_running.

Definition ending_of {A} (o : outcome A) : ending :=
  match o with
  | Ok _ => Returned
  | Throw e => Thrown e
  | Undefined => Undefined_behaviour
  | Running => Still_running
  end.

(** A computation that does not end in the way [x], in any state. *)
Definition never {S A} (x : ending) (c : M S A) : Prop :=
  forall s, ending_of (snd (c s)) <> x.

(** A computation that only adds text at the end of the output. *)
Definition appends {A} (c : M string A) : Prop :=
  forall out, exists t, fst (c out) = out +:+ t.

(** ** The program *)

(** [try { body } catch (std::exception& e) { handler }]: every exception of
    the header derives from [std::exception]. *)
Definition try_catch {S A} (body : M S A) (handler : exn -> M S A) : M S A :=
  fun s =>
    match body s with
    | (s', Throw e) => handler e s'
    | r => r
    end.

(** [int main()] of [main.cpp], whose block is a [z80::memory<0x1000, 0x2FFF>]:
    [BEGIN] and [END] stand for the two template arguments.  [draw] gives the
    values of the generator as in [randomize], and [what e] is the text of
    [e.what()], which for [std::out_of_range] the standard library chooses. *)
Definition main (draw : Z -> Z) (what : exn -> string) : M string Z :=
  print ("Z80 Emulator" +:+ newline) ;;;
  try_catch
    (rom <- lift (memory_random draw) ;;
     print (decimal size +:+ " bytes" +:+ newline) ;;;
     dump rom default_begin default_end)
    (fun e => print (what e +:+ newline)) ;;;
  ret 0.

(** An assignment to an array element, on the array alone. *)
Definition on_list (f : list byte -> outcome (list byte)) : M (list byte) unit :=
  fun bs =>
    match f bs with
    | Ok bs' => (bs', Ok tt)
    | Throw e => (bs, Throw e)
    | Undefined => (bs, Undefined)
    | Running => (bs, Running)
    end.

(** ** Machine-integer facts *)

Lemma to_size_t_small (x : Z) : 0 <= x < 2 ^ 64 -> to_size_t x = x.
Proof. intros H. unfold to_size_t, wrap. apply Z.mod_small. exact H. Qed.

Lemma to_size_t_negative (x : Z) :
  - 2 ^ 64 <= x < 0 -> to_size_t x = x + 2 ^ 64.
Proof.
  intros H. unfold to_size_t, wrap.
  symmetry. apply (Z.mod_unique_pos x (2 ^ 64) (-1)); lia.
Qed.

Lemma to_address_small (x : Z) : 0 <= x < 65536 -> to_address x = x.
Proof. intros H. unfold to_address, wrap. apply Z.mod_small. exact H. Qed.

Lemma to_address_negative (x : Z) :
  - 65536 <= x < 0 -> to_address x = x + 65536.
Proof.
  intros H. unfold to_address, wrap.
  symmetry. apply (Z.mod_unique_pos x (2 ^ 16) (-1)); lia.
Qed.

Lemma to_address_is_address (x : Z) : is_address (to_address x).
Proof.
  unfold is_address, to_address, wrap.
  pose proof (Z.mod_pos_bound x (2 ^ 16)). lia.
Qed.

(** ** Properties of the block *)

(** The template is instantiated with two [address_t] values, the lower bound
    first. *)
Hypothesis window : 0 <= BEGIN <= END /\ END < 65536.

Lemma size_window : size = END - BEGIN + 1.
Proof. unfold size. apply to_size_t_small. lia. Qed.

Lemma offset_in_window (a : Z) :
  BEGIN <= a <= END ->
  to_size_t (a - BEGIN) = a - BEGIN.
Proof. intros H. apply to_size_t_small. lia. Qed.

(** Outside the window the index handed to [at] is at least [size()]. *)
Lemma offset_outside_window (a : Z) :
  is_address a -> a < BEGIN \/ END < a ->
  size <= to_size_t (a - BEGIN).
Proof.
  intros Ha [Hlo | Hhi]; rewrite size_window; unfold is_address in Ha.
  - rewrite to_size_t_negative by lia. lia.
  - rewrite to_size_t_small by lia. lia.
Qed.

(** C1: for every address [a] of the window and every byte [v], writing [v]
    at [a] succeeds and a following read of [a] on the same block returns
    [v]. *)
Theorem write_then_read (m : memory) (a : Z) (v : byte) :
  memory_inv m ->
  BEGIN <= a <= END ->
  exists m', write m a v = Ok m' /\ read m' a = Ok v.
Proof.
  intros [Hlen _] Ha.
  unfold write, read, at_put, at_.
  rewrite offset_in_window by exact Ha.
  assert (Hidx : (Z.to_nat (a - BEGIN) < length (bytes m))%nat)
    by (rewrite Hlen, size_window; lia).
  destruct (decide _) as [_ | Hn]; [ | contradiction ].
  eexists; split; [ reflexivity | ].
  simpl. rewrite list_lookup_insert_eq by exact Hidx. reflexivity.
Qed.

(** C2: for every address outside the window, of every block and for every
    byte [v], both the read and the write throw [OutOfRange]. *)
Theorem access_outside_window (m : memory) (a : Z) (v : byte) :
  memory_inv m ->
  is_address a ->
  a < BEGIN \/ END < a ->
  read m a = Throw OutOfRange /\ write m a v = Throw OutOfRange.
Proof.
  intros [Hlen _] Ha Hout.
  pose proof (offset_outside_window a Ha Hout) as Hoff.
  assert (Hidx : (length (bytes m) <= Z.to_nat (to_size_t (a - BEGIN)))%nat).
  { rewrite Hlen. rewrite size_window in *. lia. }
  split.
  - unfold read, at_. rewrite lookup_ge_None_2 by exact Hidx. reflexivity.
  - unfold write, at_put. destruct (decide _) as [Hlt | _]; [ lia | reflexivity ].
Qed.

(** The same holds for the accessors of the earlier revision. *)
Lemma legacy_access_outside_window (m : Legacy.memory) (a : Z) (v : byte) :
  Legacy.size m = size ->
  is_address a ->
  a < BEGIN \/ END < a ->
  Legacy.read BEGIN m a = Throw OutOfRange /\
  Legacy.write BEGIN m a v = Throw OutOfRange.
Proof.
  intros Hlen Ha Hout. unfold Legacy.size in Hlen.
  pose proof (offset_outside_window a Ha Hout) as Hoff.
  assert (Hidx : (length (Legacy.bytes m) <= Z.to_nat (to_size_t (a - BEGIN)))%nat) by lia.
  split.
  - unfold Legacy.read, at_. rewrite lookup_ge_None_2 by exact Hidx. reflexivity.
  - unfold Legacy.write, at_put.
    destruct (decide _) as [Hlt | _]; [ lia | reflexivity ].
Qed.

(** C10: for every address [a] of the window and every byte [v], the write
    succeeds and the block it leaves holds, at every other address of the
    window, the byte it held before, with the column count and the number of
    stored bytes as they were and the class invariant kept (the bounds and
    [size()] are constants of the instantiation, not part of the state). *)
Theorem write_frame (m : memory) (a : Z) (v : byte) :
  memory_inv m ->
  BEGIN <= a <= END ->
  exists m',
    write m a v = Ok m' /\
    (forall a', BEGIN <= a' <= END -> a' <> a -> read m' a' = read m a') /\
    column_count m' = column_count m /\
    length (bytes m') = length (bytes m) /\
    memory_inv m'.
Proof.
  intros [Hlen Hcol] Ha.
  unfold write, at_put.
  rewrite offset_in_window by exact Ha.
  destruct (decide _) as [Hidx | Hidx];
    [ | rewrite Hlen, size_window in Hidx; lia ].
  eexists; split; [ reflexivity | ].
  cbn [bytes column_count]. repeat split.
  - intros a' Ha' Hne. unfold read, at_. cbn [bytes].
    rewrite !offset_in_window by assumption.
    rewrite list_lookup_insert_ne by lia. reflexivity.
  - apply length_insert.
  - cbn [bytes]. rewrite length_insert. exact Hlen.
  - exact Hcol.
Qed.

(** ** Loops over the array *)

Lemma length_put_range (bs : list byte) (start n : nat) (b : byte) :
  length (put_range bs start n b) = length bs.
Proof.
  revert bs start. induction n as [ | n IH]; intros bs start; simpl.
  - reflexivity.
  - rewrite IH. apply length_insert.
Qed.

Lemma lookup_put_range (bs : list byte) (start n : nat) (b : byte) (j : nat) :
  (start + n <= length bs)%nat ->
  put_range bs start n b !! j =
    if decide (start <= j < start + n)%nat then Some b else bs !! j.
Proof.
  revert bs start. induction n as [ | n IH]; intros bs start Hfit; simpl.
  - destruct (decide _) as [H | _]; [ lia | reflexivity ].
  - rewrite IH by (rewrite length_insert; lia).
    destruct (decide (S start <= j < S start + n)%nat) as [H1 | H1].
    + destruct (decide _) as [_ | H2]; [ reflexivity | lia ].
    + destruct (decide (start = j)) as [-> | Hne].
      * rewrite list_lookup_insert_eq by lia.
        destruct (decide _) as [_ | H2]; [ reflexivity | lia ].
      * rewrite list_lookup_insert_ne by exact Hne.
        destruct (decide _) as [H2 | _]; [ lia | reflexivity ].
Qed.

(** A counted loop of [at(c + i) = b] whose indices all lie in the array
    returns normally and has overwritten exactly those elements. *)
Lemma for_each_at_put (n : nat) (i c : Z) (b : byte) (m : memory) :
  0 <= c + i ->
  c + i + Z.of_nat n <= Z.of_nat (length (bytes m)) ->
  Z.of_nat (length (bytes m)) < 2 ^ 64 ->
  for_each n i
    (fun i => on_bytes (fun bs => at_put bs (to_size_t (c + i)) b)) m =
  (mk_memory (column_count m) (put_range (bytes m) (Z.to_nat (c + i)) n b),
   Ok tt).
Proof.
  revert i m. induction n as [ | n IH]; intros i m Hlo Hhi Hmax.
  - destruct m; reflexivity.
  - cbn [for_each]. unfold bind at 1. unfold on_bytes at 1, at_put.
    rewrite to_size_t_small by lia.
    destruct (decide _) as [_ | Hn]; [ | lia ].
    rewrite IH; cbn [bytes column_count]; rewrite ?length_insert; try lia.
    replace (Z.to_nat (c + (i + 1))) with (S (Z.to_nat (c + i))) by lia.
    reflexivity.
Qed.

Lemma legacy_for_each_at_put (n : nat) (i c : Z) (b : byte) (m : Legacy.memory) :
  0 <= c + i ->
  c + i + Z.of_nat n <= Z.of_nat (length (Legacy.bytes m)) ->
  Z.of_nat (length (Legacy.bytes m)) < 2 ^ 64 ->
  for_each n i
    (fun i => Legacy.on_bytes (fun bs => at_put bs (to_size_t (c + i)) b)) m =
  (Legacy.mk_memory (put_range (Legacy.bytes m) (Z.to_nat (c + i)) n b), Ok tt).
Proof.
  revert i m. induction n as [ | n IH]; intros i m Hlo Hhi Hmax.
  - destruct m; reflexivity.
  - cbn [for_each]. unfold bind at 1. unfold Legacy.on_bytes at 1, at_put.
    rewrite to_size_t_small by lia.
    destruct (decide _) as [_ | Hn]; [ | lia ].
    rewrite IH; cbn [Legacy.bytes]; rewrite ?length_insert; try lia.
    replace (Z.to_nat (c + (i + 1))) with (S (Z.to_nat (c + i))) by lia.
    reflexivity.
Qed.

Lemma on_bytes_assign_shape (p : Z) (v : byte) (m m1 : memory) (r : outcome unit) :
  on_bytes (fun bs => at_put bs p v) m = (m1, r) ->
  length (bytes m1) = length (bytes m) /\ column_count m1 = column_count m.
Proof.
  unfold on_bytes, at_put. destruct (decide _); intros [= <- <-]; simpl.
  - rewrite length_insert. split; reflexivity.
  - split; reflexivity.
Qed.

(** Whatever a loop of element assignments does, and however it ends, the
    array keeps its length and the column count its value. *)
Lemma for_each_assign_shape (n : nat) (i : Z) (pos : Z -> Z) (val : Z -> byte)
    (m : memory) :
  let m' := fst (for_each n i
                   (fun i => on_bytes (fun bs => at_put bs (pos i) (val i))) m) in
  length (bytes m') = length (bytes m) /\ column_count m' = column_count m.
Proof.
  revert i m. induction n as [ | n IH]; intros i m; cbn [for_each].
  - split; reflexivity.
  - unfold bind.
    destruct (on_bytes _ m) as [m1 r] eqn:E.
    apply on_bytes_assign_shape in E as [E1 E2].
    destruct r; cbn [fst]; try (split; assumption).
    specialize (IH (i + 1) m1). cbn zeta in IH.
    rewrite E1, E2 in IH. exact IH.
Qed.

(** ** Constructors and the class invariant *)

Lemma initial_inv : memory_inv initial.
Proof.
  unfold memory_inv, initial; cbn [bytes column_count]. split.
  - apply length_replicate.
  - unfold PARAGRAPH. destruct (Z.ltb_spec size 16); lia.
Qed.

Lemma fill_inv (b : byte) (begin end_ : Z) (m : memory) :
  memory_inv m -> memory_inv (fst (fill b begin end_ m)).
Proof.
  intros [Hlen Hcol]. unfold fill.
  destruct (_ >? _); [ split; assumption | ].
  pose proof (for_each_assign_shape
                (Z.to_nat (to_address (end_ - begin) - to_address (begin - BEGIN)))
                (to_address (begin - BEGIN))
                (fun i => to_size_t (to_address (begin - BEGIN) + i))
                (fun _ => b) m) as [H1 H2].
  cbn beta in H1, H2. unfold memory_inv. rewrite H1, H2. split; assumption.
Qed.

Lemma randomize_inv (draw : Z -> Z) (lo hi : Z) (m : memory) :
  memory_inv m -> memory_inv (fst (randomize draw lo hi m)).
Proof.
  intros [Hlen Hcol]. unfold randomize.
  pose proof (for_each_assign_shape (Z.to_nat size) 0
                (fun addr => to_size_t addr)
                (fun addr => to_byte (lo + draw addr mod wrap 32 (hi - lo + 1)))
                m) as [H1 H2].
  cbn beta in H1, H2. unfold memory_inv. rewrite H1, H2. split; assumption.
Qed.

Lemma load_inv (opens : string -> bool) (fs : filesystem) (filename : string)
    (m : memory) :
  memory_inv m -> memory_inv (fst (load opens fs filename m)).
Proof.
  intros [Hlen Hcol]. unfold load.
  destruct (fs !! filename) as [[data | ] | ]; [ | split; assumption .. ].
  destruct (Z.ltb_spec (Z.of_nat (length data)) size) as [Hlt | Hge];
    [ split; assumption | ].
  destruct (opens filename); [ | split; assumption ].
  unfold on_bytes, memory_inv; cbn [fst bytes column_count].
  split; [ | exact Hcol ].
  rewrite length_app, length_take, length_drop. lia.
Qed.

Lemma construct_inv (body : M memory unit) (m : memory) :
  (forall m0, memory_inv m0 -> memory_inv (fst (body m0))) ->
  construct body = Ok m -> memory_inv m.
Proof.
  intros Hbody. unfold construct.
  specialize (Hbody initial initial_inv).
  destruct (body initial) as [m1 r]. cbn [fst] in Hbody.
  destruct r; intros [= <-]. exact Hbody.
Qed.

(** Each of the three constructors leaves a block that satisfies the class
    invariant; in particular its column count is [min(size(), PARAGRAPH)]. *)
Lemma constructors_inv (m : memory) :
  (forall draw, memory_random draw = Ok m -> memory_inv m) /\
  (forall b, memory_byte b = Ok m -> memory_inv m) /\
  (forall opens fs filename,
     memory_file opens fs filename = Ok m -> memory_inv m).
Proof.
  split; [ | split ].
  - intros draw. apply construct_inv. intros m0. apply randomize_inv.
  - intros b. apply construct_inv. intros m0. apply fill_inv.
  - intros opens fs filename. apply construct_inv. intros m0. apply load_inv.
Qed.

(** ** Read access after a loop of assignments *)

Lemma read_put_range (m : memory) (start n : nat) (b : byte) (a : Z) :
  BEGIN <= a <= END ->
  (start + n <= length (bytes m))%nat ->
  read (mk_memory (column_count m) (put_range (bytes m) start n b)) a =
    if decide (BEGIN + Z.of_nat start <= a < BEGIN + Z.of_nat start + Z.of_nat n)
    then Ok b else read m a.
Proof.
  intros Ha Hfit. unfold read, at_; cbn [bytes].
  rewrite offset_in_window by exact Ha.
  rewrite lookup_put_range by exact Hfit.
  destruct (decide (start <= _ < _)%nat) as [H1 | H1];
    destruct (decide (_ <= a < _)) as [H2 | H2]; try reflexivity; lia.
Qed.

(** [fill] from the lower bound of the window: the span [[BEGIN, end_)] is
    overwritten, the rest of the block is kept. *)
Lemma fill_from_begin (m : memory) (v : byte) (end_ : Z) :
  memory_inv m ->
  BEGIN <= end_ <= END + 1 -> is_address end_ ->
  exists m',
    fill v BEGIN end_ m = (m', Ok tt) /\
    forall a, BEGIN <= a <= END ->
      read m' a = if decide (a < end_) then Ok v else read m a.
Proof.
  intros [Hlen Hcol] Hspan Hend. unfold is_address in Hend.
  pose proof size_window as Hsize.
  unfold fill. rewrite Z.sub_diag.
  rewrite (to_address_small 0) by lia.
  rewrite (to_address_small (end_ - BEGIN)) by lia.
  rewrite Z.sub_0_r, to_size_t_small by lia.
  destruct (Z.gtb_spec (end_ - BEGIN) size) as [Hgt | _]; [ lia | ].
  rewrite for_each_at_put by lia.
  eexists; split; [ reflexivity | ].
  intros a Ha. rewrite read_put_range by (try assumption; lia).
  destruct (decide (_ <= a < _)) as [H1 | H1];
    destruct (decide (a < end_)) as [H2 | H2]; try reflexivity; lia.
Qed.

(** The earlier revision of [fill] overwrites exactly the span
    [[begin, end_)], for every span inside the window. *)
Lemma legacy_fill_span (m : Legacy.memory) (v : byte) (begin end_ : Z) :
  Legacy.size m = size ->
  BEGIN <= begin -> begin <= end_ -> end_ <= END + 1 -> is_address end_ ->
  exists m',
    Legacy.fill BEGIN begin end_ v m = (m', Ok tt) /\
    forall a, BEGIN <= a <= END ->
      Legacy.read BEGIN m' a =
        if decide (begin <= a < end_) then Ok v else Legacy.read BEGIN m a.
Proof.
  intros Hlen Hb Hbe He Hend. unfold is_address in Hend.
  unfold Legacy.size in Hlen. rewrite size_window in Hlen.
  unfold Legacy.fill.
  rewrite (to_address_small (end_ - begin)) by lia.
  rewrite (to_address_small (begin - BEGIN)) by lia.
  rewrite legacy_for_each_at_put by lia.
  eexists; split; [ reflexivity | ].
  intros a Ha. unfold Legacy.read, at_; cbn [Legacy.bytes].
  rewrite offset_in_window by exact Ha.
  rewrite lookup_put_range by lia.
  destruct (decide (_ <= _ < _)%nat) as [H1 | H1];
    destruct (decide (begin <= a < end_)) as [H2 | H2]; try reflexivity; lia.
Qed.

(** ** Spans of stored bytes *)

Lemma stored_lookup (m : memory) (a : Z) :
  memory_inv m -> BEGIN <= a <= END ->
  bytes m !! Z.to_nat (a - BEGIN) = Some (stored m a).
Proof.
  intros [Hlen _] Ha. unfold stored, read, at_.
  rewrite offset_in_window by exact Ha.
  destruct (bytes m !! Z.to_nat (a - BEGIN)) as [b | ] eqn:E; [ reflexivity | ].
  apply lookup_ge_None in E. rewrite Hlen, size_window in E. lia.
Qed.

Lemma read_stored (m : memory) (a : Z) :
  memory_inv m -> BEGIN <= a <= END -> read m a = Ok (stored m a).
Proof.
  intros Hinv Ha. pose proof (stored_lookup m a Hinv Ha) as H.
  unfold read, at_. rewrite offset_in_window by exact Ha.
  rewrite H. reflexivity.
Qed.

Lemma length_row_bytes (m : memory) (addr : Z) (n : nat) :
  length (row_bytes m addr n) = n.
Proof. unfold row_bytes. rewrite length_fmap. apply length_seq. Qed.

(** The [n] array elements from the offset of [begin] are the bytes stored at
    the addresses [begin], ..., [begin + n - 1]. *)
Lemma span_row_bytes (m : memory) (begin : Z) (n : nat) :
  memory_inv m ->
  BEGIN <= begin -> begin + Z.of_nat n <= END + 1 ->
  take n (drop (Z.to_nat (begin - BEGIN)) (bytes m)) = row_bytes m begin n.
Proof.
  intros Hinv Hb He. apply list_eq. intros k.
  unfold row_bytes. rewrite lookup_take, lookup_drop, list_lookup_fmap.
  destruct (decide (k < n)%nat) as [Hk | Hk].
  - rewrite lookup_seq_lt by exact Hk. cbn [fmap option_fmap option_map].
    rewrite <- (stored_lookup m (begin + Z.of_nat (0 + k))) by (try assumption; lia).
    f_equal. lia.
  - rewrite lookup_seq_ge by lia. reflexivity.
Qed.

(** ** Loading *)

(** C5, as the code has it: construction from a file throws [NotFound] when
    the path does not exist, the file-system error of [file_size] when the
    path exists and is no regular file, and [SizeMismatch] when the file is
    shorter than [size()].  For a file of at least [size()] bytes the outcome
    lies with the input stream, which the code does not check: when it opens,
    the block's array is the first [size()] bytes of the file, unchanged, the
    first byte of the file at [BEGIN], whatever follows them in the file;
    when it does not open, the constructor returns the zeroed block and
    throws nothing. *)
Theorem memory_file_outcomes (opens : string -> bool) (fs : filesystem)
    (filename : string) :
  (fs !! filename = None -> memory_file opens fs filename = Throw NotFound) /\
  (fs !! filename = Some Directory ->
     memory_file opens fs filename = Throw FilesystemError) /\
  (forall data, fs !! filename = Some (Regular data) ->
     Z.of_nat (length data) < size ->
     memory_file opens fs filename = Throw SizeMismatch) /\
  (forall data, fs !! filename = Some (Regular data) ->
     size <= Z.of_nat (length data) ->
     (opens filename = true ->
        exists m, memory_file opens fs filename = Ok m /\
          memory_inv m /\
          bytes m = take (Z.to_nat size) data /\
          forall (k : nat) (b : byte), Z.of_nat k < size ->
            data !! k = Some b -> read m (BEGIN + Z.of_nat k) = Ok b) /\
     (opens filename = false ->
        memory_file opens fs filename = Ok initial)).
Proof.
  pose proof size_window as Hsize.
  unfold memory_file, construct, load. split; [ | split; [ | split ] ].
  - intros ->. reflexivity.
  - intros ->. reflexivity.
  - intros data -> Hshort.
    destruct (Z.ltb_spec (Z.of_nat (length data)) size); [ reflexivity | lia ].
  - intros data -> Hlong.
    destruct (Z.ltb_spec (Z.of_nat (length data)) size); [ lia | ].
    split; intros ->; [ | reflexivity ].
    unfold on_bytes, initial; cbn [bytes column_count].
    rewrite (drop_ge (replicate _ _)) by (rewrite length_replicate; lia).
    rewrite app_nil_r.
    eexists; split; [ reflexivity | ]. split; [ | split ].
    + unfold memory_inv; cbn [bytes column_count]. split.
      * rewrite length_take. lia.
      * unfold PARAGRAPH. destruct (Z.ltb_spec size 16); lia.
    + reflexivity.
    + intros k b Hk Hdata. unfold read, at_; cbn [bytes].
      rewrite offset_in_window by lia.
      replace (Z.to_nat (BEGIN + Z.of_nat k - BEGIN)) with k by lia.
      rewrite lookup_take_lt by lia. rewrite Hdata. reflexivity.
Qed.

(** ** Saving *)

(** [save] throws [Overflow] exactly when the span length, as a [size_t],
    exceeds [size()]; the test precedes the look at the file system. *)
Lemma save_overflow (opens : string -> bool) (m : memory) (filename : string)
    (begin end_ : Z) (fs : filesystem) :
  (to_size_t (end_ - begin) > size ->
     save opens m filename begin end_ fs = (fs, Throw Overflow)) /\
  (to_size_t (end_ - begin) <= size ->
     snd (save opens m filename begin end_ fs) <> Throw Overflow).
Proof.
  unfold save. split; intros H.
  - destruct (Z.gtb_spec (to_size_t (end_ - begin)) size); [ reflexivity | lia ].
  - destruct (Z.gtb_spec (to_size_t (end_ - begin)) size); [ lia | ].
    destruct (fs !! filename); [ discriminate | ].
    destruct (opens filename); destruct (_ <=? _); discriminate.
Qed.

(** C6, as the code has it: when the target path exists, [save] throws and
    the file system stays as it was; the exception is [AlreadyExists] for a
    span of at most [size()] bytes and [Overflow] otherwise.  With a span
    inside the window and a fresh path, [save] returns normally, and what it
    leaves lies with the output stream, which the code does not check: when
    it opens, the new file holds exactly the bytes stored at [begin], ...,
    [end_ - 1]; when it does not open, there is no new file and the file
    system stays as it was. *)
Theorem save_outcomes (opens : string -> bool) (m : memory) (fs : filesystem)
    (filename : string) (begin end_ : Z) :
  memory_inv m -> is_address begin -> is_address end_ ->
  (forall n, fs !! filename = Some n ->
     (0 <= end_ - begin <= size ->
        save opens m filename begin end_ fs = (fs, Throw AlreadyExists)) /\
     (~ 0 <= end_ - begin <= size ->
        save opens m filename begin end_ fs = (fs, Throw Overflow))) /\
  (fs !! filename = None ->
     BEGIN <= begin -> begin <= end_ -> end_ <= END + 1 ->
     (opens filename = true ->
        save opens m filename begin end_ fs =
          (<[filename := Regular (row_bytes m begin (Z.to_nat (end_ - begin)))]> fs,
           Ok tt)) /\
     (opens filename = false ->
        save opens m filename begin end_ fs = (fs, Ok tt))).
Proof.
  intros Hinv Hb He. pose proof size_window as Hsize.
  unfold is_address in Hb, He. split.
  - intros n Hn. unfold save. split; intros Hspan.
    + rewrite to_size_t_small by lia.
      destruct (Z.gtb_spec (end_ - begin) size); [ lia | ].
      rewrite Hn. reflexivity.
    + destruct (Z_lt_le_dec (end_ - begin) 0) as [Hneg | Hpos].
      * rewrite to_size_t_negative by lia.
        destruct (Z.gtb_spec (end_ - begin + 2 ^ 64) size); [ reflexivity | lia ].
      * rewrite to_size_t_small by lia.
        destruct (Z.gtb_spec (end_ - begin) size); [ reflexivity | lia ].
  - intros Hfresh Hlo Hle Hhi. unfold save.
    rewrite to_size_t_small by lia.
    destruct (Z.gtb_spec (end_ - begin) size); [ lia | ].
    rewrite Hfresh. rewrite to_address_small by lia.
    destruct Hinv as [Hlen Hcol].
    split; intros ->.
    + destruct (Z.leb_spec (begin - BEGIN + (end_ - begin))
                  (Z.of_nat (length (bytes m)))) as [_ | Hbad]; [ | lia ].
      rewrite span_row_bytes by (try split; try assumption; lia).
      reflexivity.
    + destruct (Z.leb_spec (begin - BEGIN) (Z.of_nat (length (bytes m))))
        as [_ | Hbad]; [ reflexivity | lia ].
Qed.

(** ** Text *)

Lemma append_empty_r (s : string) : s +:+ EmptyString = s.
Proof.
  induction s as [ | c t IH]; [ reflexivity | ].
  exact (f_equal (String c) IH).
Qed.

Lemma append_assoc (s1 s2 s3 : string) :
  (s1 +:+ s2) +:+ s3 = s1 +:+ (s2 +:+ s3).
Proof.
  induction s1 as [ | c t IH]; [ reflexivity | ].
  exact (f_equal (String c) IH).
Qed.

(** The sixteen digit characters. *)
Lemma hex_digit_chars :
  string_of_chars (map hex_digit [0; 1; 2; 3; 4; 5; 6; 7; 8; 9; 10; 11; 12; 13; 14; 15])
  = "0123456789ABCDEF"%string.
Proof. reflexivity. Qed.

Lemma hex_fixed_length (w : nat) (n : Z) : String.length (hex_fixed w n) = w.
Proof. induction w as [ | w IH]; simpl; [ | rewrite IH ]; reflexivity. Qed.

(** [std::format] with ["{:02X}"] gives a byte exactly two digits. *)
Lemma format_byte (b : byte) : format_0X 2 (byte_val b) = hex_fixed 2 (byte_val b).
Proof. destruct b; vm_compute; reflexivity. Qed.

(** The last digit of a fixed-width numeral is the value modulo 16, the
    digits before it are those of the quotient. *)
Lemma hex_fixed_snoc (w : nat) (n : Z) :
  hex_fixed (S w) n =
  hex_fixed w (n / 16) +:+ String (hex_digit (n mod 16)) EmptyString.
Proof.
  induction w as [ | w IH].
  - cbn [hex_fixed]. change (16 ^ Z.of_nat 0) with 1. rewrite Z.div_1_r.
    reflexivity.
  - change (hex_fixed (S (S w)) n)
      with (String (hex_digit ((n / 16 ^ Z.of_nat (S w)) mod 16))
              (hex_fixed (S w) n)).
    rewrite IH.
    change (hex_fixed (S w) (n / 16))
      with (String (hex_digit ((n / 16 / 16 ^ Z.of_nat w) mod 16))
              (hex_fixed w (n / 16))).
    rewrite Nat2Z.inj_succ, Z.pow_succ_r by lia.
    rewrite Z.div_div by lia. reflexivity.
Qed.

(** Above the highest digit of [n] a fixed-width numeral has zeros. *)
Lemma hex_fixed_leading_zeros (d k : nat) (n : Z) :
  0 <= n < 16 ^ Z.of_nat d ->
  hex_fixed (k + d) n = zeros k +:+ hex_fixed d n.
Proof.
  intros Hn. induction k as [ | k IH]; [ reflexivity | ].
  change (hex_fixed (S k + d) n)
    with (String (hex_digit ((n / 16 ^ Z.of_nat (k + d)) mod 16))
            (hex_fixed (k + d) n)).
  rewrite IH. rewrite Z.div_small.
  - reflexivity.
  - split; [ lia | ].
    apply Z.lt_le_trans with (16 ^ Z.of_nat d); [ lia | ].
    apply Z.pow_le_mono_r; lia.
Qed.

(** The shortest numeral of a number of exactly [S w] digits. *)
Lemma hex_digits_fixed (w : nat) :
  forall (fuel : nat) (n : Z) (acc : string),
    (S w <= fuel)%nat ->
    0 <= n < 16 ^ Z.of_nat (S w) ->
    (w = O \/ 16 ^ Z.of_nat w <= n) ->
    hex_digits fuel n acc = hex_fixed (S w) n +:+ acc.
Proof.
  induction w as [ | w IH]; intros fuel n acc Hfuel Hn Hd;
    (destruct fuel as [ | fuel]; [ lia | ]); cbn [hex_digits].
  - change (16 ^ Z.of_nat 1) with 16 in Hn.
    rewrite Z.div_small by lia. cbn [Z.eqb].
    cbn [hex_fixed]. change (16 ^ Z.of_nat 0) with 1. rewrite Z.div_1_r.
    reflexivity.
  - destruct Hd as [Hd | Hd]; [ discriminate | ].
    assert (Hpos : 0 < 16 ^ Z.of_nat w) by (apply Z.pow_pos_nonneg; lia).
    assert (E : forall k : nat, 16 ^ Z.of_nat (S k) = 16 * 16 ^ Z.of_nat k)
      by (intros k; rewrite Nat2Z.inj_succ, Z.pow_succ_r by lia; reflexivity).
    assert (Hq : 16 ^ Z.of_nat w <= n / 16 < 16 ^ Z.of_nat (S w)).
    { rewrite !E in Hn. rewrite E in Hd. rewrite E. split.
      - apply Z.div_le_lower_bound; lia.
      - apply Z.div_lt_upper_bound; lia. }
    destruct (Z.eqb_spec (n / 16) 0) as [H0 | _]; [ lia | ].
    rewrite IH; [ | lia | lia | right; lia ].
    rewrite (hex_fixed_snoc (S w) n). rewrite append_assoc. reflexivity.
Qed.

(** [std::format] with ["{:04X}"] gives an [address_t] exactly four digits. *)
Lemma format_address (a : Z) : is_address a -> format_0X 4 a = hex_fixed 4 a.
Proof.
  intros Ha. unfold is_address in Ha. unfold format_0X, hex_upper.
  assert (Hlog : forall b, 2 ^ b <= a -> 0 <= b -> (Z.to_nat b <= Z.to_nat (Z.log2 a))%nat).
  { intros b Hb Hb0. apply Z2Nat.inj_le; [ lia | apply Z.log2_nonneg | ].
    apply Z.log2_le_pow2; lia. }
  destruct (Z_lt_le_dec a 16) as [H1 | H1];
    [ | destruct (Z_lt_le_dec a 256) as [H2 | H2];
        [ | destruct (Z_lt_le_dec a 4096) as [H3 | H3] ] ].
  - rewrite (hex_digits_fixed 0) by (try lia; change (16 ^ Z.of_nat 1) with 16; lia).
    rewrite append_empty_r, hex_fixed_length.
    apply (eq_sym (hex_fixed_leading_zeros 1 3 a ltac:(change (16 ^ Z.of_nat 1) with 16; lia))).
  - rewrite (hex_digits_fixed 1);
      [ | specialize (Hlog 4 ltac:(lia) ltac:(lia)); lia
        | change (16 ^ Z.of_nat 2) with 256; lia
        | right; change (16 ^ Z.of_nat 1) with 16; lia ].
    rewrite append_empty_r, hex_fixed_length.
    apply (eq_sym (hex_fixed_leading_zeros 2 2 a ltac:(change (16 ^ Z.of_nat 2) with 256; lia))).
  - rewrite (hex_digits_fixed 2);
      [ | specialize (Hlog 8 ltac:(lia) ltac:(lia)); lia
        | change (16 ^ Z.of_nat 3) with 4096; lia
        | right; change (16 ^ Z.of_nat 2) with 256; lia ].
    rewrite append_empty_r, hex_fixed_length.
    apply (eq_sym (hex_fixed_leading_zeros 3 1 a ltac:(change (16 ^ Z.of_nat 3) with 4096; lia))).
  - rewrite (hex_digits_fixed 3);
      [ | specialize (Hlog 12 ltac:(lia) ltac:(lia)); lia
        | change (16 ^ Z.of_nat 4) with 65536; lia
        | right; change (16 ^ Z.of_nat 3) with 4096; lia ].
    rewrite append_empty_r, hex_fixed_length. reflexivity.
Qed.

(** The test of [dump_paragraph] on the [char] and the rule on the byte value
    pick the same character. *)
Lemma printable_or_dot_rule (b : byte) : printable_or_dot b = char_or_dot b.
Proof. destruct b; vm_compute; reflexivity. Qed.

(** ** One row of the dump *)

Section Row.

Variable bs : list byte.
Variable off : Z.
Variable g : byte -> string.

(** A loop of fetch-and-print over elements that all exist prints the text of
    each, in order. *)
Lemma for_each_print (row : list byte) (i : Z) (out : string) :
  (forall (k : nat) (b : byte), row !! k = Some b ->
     at_ bs (to_size_t (off + (i + Z.of_nat k))) = Ok b) ->
  for_each (length row) i (column bs off g) out =
    (out +:+ concat_text (map g row), Ok tt).
Proof.
  revert i out. induction row as [ | b row IH]; intros i out Hrow.
  - cbn [length for_each map concat_text]. unfold ret.
    rewrite append_empty_r. reflexivity.
  - cbn [length for_each]. unfold bind at 1. unfold column at 1.
    unfold bind, lift, print.
    pose proof (Hrow O b eq_refl) as H0. rewrite Z.add_0_r in H0.
    rewrite H0. rewrite IH.
    + cbn [map concat_text]. rewrite append_assoc. reflexivity.
    + intros k b' Hk. specialize (Hrow (S k) b' Hk).
      rewrite <- Hrow. do 3 f_equal. lia.
Qed.

(** When the loop ends normally every element it asked for exists. *)
Lemma for_each_print_fetched (n : nat) (i : Z) (out out' : string) :
  for_each n i (column bs off g) out = (out', Ok tt) ->
  forall k : nat, (k < n)%nat ->
    exists b, at_ bs (to_size_t (off + (i + Z.of_nat k))) = Ok b.
Proof.
  revert i out. induction n as [ | n IH]; intros i out Hrun k Hk; [ lia | ].
  cbn [for_each] in Hrun. unfold bind at 1 in Hrun. unfold column at 1 in Hrun.
  unfold bind, lift, print in Hrun.
  destruct (at_ bs (to_size_t (off + i))) as [b | e | | ] eqn:E;
    try discriminate.
  destruct k as [ | k].
  - exists b. rewrite Z.add_0_r. exact E.
  - destruct (IH _ _ Hrun k ltac:(lia)) as [b' Hb'].
    exists b'. rewrite <- Hb'. do 3 f_equal. lia.
Qed.

End Row.

Lemma concat_text_hex (row : list byte) :
  concat_text (map (fun b => format_0X 2 (byte_val b) +:+ " ") row) =
  concat_text (map (fun b => hex_fixed 2 (byte_val b) +:+ " ") row).
Proof.
  induction row as [ | b row IH]; [ reflexivity | ].
  cbn [map concat_text]. rewrite IH, format_byte. reflexivity.
Qed.

Lemma concat_text_chars (row : list byte) :
  concat_text (map (fun c => String (printable_or_dot c) EmptyString) row) =
  string_of_chars (map char_or_dot row).
Proof.
  induction row as [ | b row IH]; [ reflexivity | ].
  cbn [map concat_text string_of_chars].
  rewrite IH, printable_or_dot_rule. reflexivity.
Qed.

(** The array elements a row asks for, when the row lies in the window. *)
Lemma row_fetch (m : memory) (addr : Z) (n : nat) (k : nat) (b : byte) :
  memory_inv m ->
  BEGIN <= addr -> addr + Z.of_nat n <= END + 1 ->
  row_bytes m addr n !! k = Some b ->
  at_ (bytes m) (to_size_t (to_address (addr - BEGIN) + (0 + Z.of_nat k))) = Ok b.
Proof.
  intros Hinv Hlo Hhi Hk. unfold row_bytes in Hk.
  rewrite list_lookup_fmap in Hk.
  destruct (seq 0 n !! k) as [j | ] eqn:E; [ | discriminate ].
  apply lookup_seq in E as [-> Hlt]. cbn in Hk. injection Hk as <-.
  rewrite to_address_small by lia.
  rewrite <- (read_stored m (addr + Z.of_nat k)) by (try assumption; lia).
  unfold read. do 2 f_equal. lia.
Qed.

(** A row that lies in the window is printed whole, in the row format. *)
Lemma dump_paragraph_row (m : memory) (addr : Z) (out : string) :
  memory_inv m ->
  BEGIN <= addr -> addr + column_count m <= END + 1 ->
  dump_paragraph m addr out =
    (out +:+ row_text addr (row_bytes m addr (Z.to_nat (column_count m))), Ok tt).
Proof.
  intros Hinv Hlo Hhi.
  assert (Hcc : 1 <= column_count m).
  { destruct Hinv as [_ ->]. rewrite size_window. unfold PARAGRAPH. lia. }
  set (row := row_bytes m addr (Z.to_nat (column_count m))).
  assert (Hrow : forall (k : nat) (b : byte), row !! k = Some b ->
            at_ (bytes m)
              (to_size_t (to_address (addr - BEGIN) + (0 + Z.of_nat k))) = Ok b).
  { intros k b. apply row_fetch; try assumption. lia. }
  unfold dump_paragraph.
  unfold bind at 1. unfold print at 1. cbn zeta.
  unfold bind at 1.
  pose proof (for_each_print (bytes m) (to_address (addr - BEGIN))
                (fun b => format_0X 2 (byte_val b) +:+ " ") row 0
                (out +:+ "$" +:+ format_0X 4 addr +:+ " ") Hrow) as H1.
  unfold column in H1. cbn beta in H1. unfold row in H1 at 1. rewrite length_row_bytes in H1.
  rewrite H1. clear H1.
  unfold bind at 1. unfold print at 1.
  unfold bind at 1.
  pose proof (for_each_print (bytes m) (to_address (addr - BEGIN))
                (fun c => String (printable_or_dot c) EmptyString) row 0
                ((out +:+ "$" +:+ format_0X 4 addr +:+ " ") +:+
                 concat_text (map (fun b => format_0X 2 (byte_val b) +:+ " ") row)
                 +:+ "| ") Hrow) as H2.
  unfold column in H2. cbn beta in H2. unfold row in H2 at 1. rewrite length_row_bytes in H2.
  rewrite !append_assoc in H2. rewrite !append_assoc.
  rewrite H2. clear H2.
  unfold print. rewrite !append_assoc.
  rewrite concat_text_hex, concat_text_chars.
  rewrite format_address by (unfold is_address; lia).
  unfold row_text. reflexivity.
Qed.

(** ** Sequencing *)

Lemma bind_ok_inv {S A B} (c : M S A) (k : A -> M S B) (s s' : S) (b : B) :
  bind c k s = (s', Ok b) ->
  exists s1 a, c s = (s1, Ok a) /\ k a s1 = (s', Ok b).
Proof.
  unfold bind. destruct (c s) as [s1 [a | e | | ]]; try discriminate.
  intros H. exists s1, a. split; [ reflexivity | exact H ].
Qed.

Lemma never_bind {S A B} (x : ending) (c : M S A) (k : A -> M S B) :
  x <> Returned ->
  never x c -> (forall a, never x (k a)) -> never x (bind c k).
Proof.
  intros Hx Hc Hk s. unfold bind. specialize (Hc s).
  destruct (c s) as [s1 [a | e' | | ]]; cbn [snd ending_of] in *;
    [ apply Hk | exact Hc | exact Hc | exact Hc ].
Qed.

Lemma never_for_each {S} (x : ending) (n : nat) (i : Z) (body : Z -> M S unit) :
  x <> Returned ->
  (forall j, never x (body j)) -> never x (for_each n i body).
Proof.
  intros Hx Hbody. revert i. induction n as [ | n IH]; intros i.
  - intros s. cbn. congruence.
  - cbn [for_each]. apply never_bind; [ exact Hx | apply Hbody | intros _; apply IH ].
Qed.

Lemma never_print (x : ending) (s : string) : x <> Returned -> never x (print s).
Proof. intros Hx out. cbn. congruence. Qed.

Lemma never_fetch (x : ending) (bs : list byte) (pos : Z) :
  x <> Returned -> x <> Thrown OutOfRange ->
  never x (lift (S := string) (at_ bs pos)).
Proof.
  intros Hx Hx' out. unfold lift, at_.
  destruct (bs !! _); cbn; congruence.
Qed.

(** ** Rows and the loop of [dump] *)

(** A row ends by returning or with the exception of [at]. *)
Lemma never_dump_paragraph (x : ending) (m : memory) (addr : Z) :
  x <> Returned -> x <> Thrown OutOfRange ->
  never x (dump_paragraph m addr).
Proof.
  intros Hx Hx'. unfold dump_paragraph.
  repeat first
    [ apply never_print; exact Hx
    | apply never_fetch; [ exact Hx | exact Hx' ]
    | apply never_for_each; [ exact Hx | intros ? ]
    | apply never_bind; [ exact Hx | | intros ? ] ].
Qed.

Lemma never_dump_loop (fuel : nat) (m : memory) (i end_ : Z) :
  never (Thrown Overflow) (dump_loop fuel m i end_).
Proof.
  revert i. induction fuel as [ | fuel IH]; intros i; cbn [dump_loop].
  - intros out. discriminate.
  - destruct (i <? end_).
    + apply never_bind;
        [ discriminate
        | apply never_dump_paragraph; discriminate
        | intros _; apply IH ].
    + intros out. discriminate.
Qed.

(** [dump] throws [Overflow] exactly when the span length, as a [size_t],
    exceeds [size()], and then before any output. *)
Lemma dump_overflow (m : memory) (begin end_ : Z) (out : string) :
  (to_size_t (end_ - begin) > size ->
     dump m begin end_ out = (out, Throw Overflow)) /\
  (to_size_t (end_ - begin) <= size ->
     snd (dump m begin end_ out) <> Throw Overflow).
Proof.
  unfold dump. split; intros H.
  - destruct (Z.gtb_spec (to_size_t (end_ - begin)) size); [ reflexivity | lia ].
  - destruct (Z.gtb_spec (to_size_t (end_ - begin)) size); [ lia | ].
    intros Hthrow. apply (never_dump_loop dump_budget m begin end_ out).
    rewrite Hthrow. reflexivity.
Qed.

(** A row printed to its end lies in the window. *)
Lemma dump_paragraph_ok_inv (m : memory) (addr : Z) (out out' : string) :
  memory_inv m -> is_address addr ->
  dump_paragraph m addr out = (out', Ok tt) ->
  BEGIN <= addr /\ addr + column_count m <= END + 1.
Proof.
  intros [Hlen Hcol] Ha Hrun. unfold is_address in Ha.
  pose proof size_window as Hsize.
  assert (Hcc : 1 <= column_count m <= 16)
    by (rewrite Hcol; unfold PARAGRAPH; lia).
  unfold dump_paragraph in Hrun.
  apply bind_ok_inv in Hrun as (s1 & [] & _ & Hrun). cbn zeta in Hrun.
  apply bind_ok_inv in Hrun as (s2 & [] & Hloop & _).
  pose proof (for_each_print_fetched (bytes m) (to_address (addr - BEGIN))
                (fun b => format_0X 2 (byte_val b) +:+ " ")
                _ _ _ _ Hloop (Z.to_nat (column_count m - 1)) ltac:(lia))
    as [b Hb].
  unfold at_ in Hb.
  destruct (bytes m !! _) as [b' | ] eqn:E; [ | discriminate ].
  apply lookup_lt_Some in E. rewrite Hlen in E.
  pose proof (to_address_is_address (addr - BEGIN)) as Hoff.
  unfold is_address in Hoff.
  rewrite to_size_t_small in E by lia.
  destruct (Z_lt_le_dec addr BEGIN) as [Hlt | Hge].
  - rewrite to_address_negative in E by lia. lia.
  - rewrite to_address_small in E by lia. lia.
Qed.

Lemma row_addresses_S (begin : Z) (n : nat) :
  row_addresses begin (S n) = begin :: row_addresses (begin + PARAGRAPH) n.
Proof.
  unfold row_addresses. cbn [seq fmap list_fmap]. f_equal; [ lia | ].
  rewrite <- fmap_S_seq, <- list_fmap_compose.
  apply list_fmap_ext. intros _ k _. cbn. lia.
Qed.

(** The text of the rows at the given addresses, [n] columns each. *)
Lemma dump_loop_rows (m : memory) (end_ : Z) :
  memory_inv m ->
  forall (n fuel : nat) (i : Z) (out : string),
    (n < fuel)%nat ->
    BEGIN <= i -> i + PARAGRAPH * Z.of_nat n < 65536 ->
    (forall k : nat, (k < n)%nat ->
       i + PARAGRAPH * Z.of_nat k < end_ /\
       i + PARAGRAPH * Z.of_nat k + column_count m <= END + 1) ->
    end_ <= i + PARAGRAPH * Z.of_nat n ->
    dump_loop fuel m i end_ out =
      (out +:+ concat_text
                 (map (fun a => row_text a
                                  (row_bytes m a (Z.to_nat (column_count m))))
                      (row_addresses i n)),
       Ok tt).
Proof.
  intros Hinv. unfold PARAGRAPH.
  induction n as [ | n IH]; intros fuel i out Hfuel Hlo Hwrap Hrows Hend;
    (destruct fuel as [ | fuel]; [ lia | ]); cbn [dump_loop].
  - destruct (Z.ltb_spec i end_); [ lia | ].
    unfold ret. cbn. rewrite append_empty_r. reflexivity.
  - destruct (Hrows O ltac:(lia)) as [H0 H1]. rewrite Z.mul_0_r, Z.add_0_r in H0, H1.
    destruct (Z.ltb_spec i end_); [ | lia ].
    unfold bind. rewrite dump_paragraph_row by assumption.
    unfold PARAGRAPH. rewrite to_address_small by lia.
    rewrite IH; try lia.
    + rewrite row_addresses_S. cbn [map concat_text].
      rewrite append_assoc. reflexivity.
    + intros k Hk. specialize (Hrows (S k) ltac:(lia)). lia.
Qed.

(** *** Output is only appended *)

Lemma appends_bind {A B} (c : M string A) (k : A -> M string B) :
  appends c -> (forall a, appends (k a)) -> appends (bind c k).
Proof.
  intros Hc Hk out. destruct (Hc out) as [t Ht]. unfold bind.
  destruct (c out) as [s1 r]. cbn [fst] in Ht. subst s1.
  destruct r as [a | e | | ]; try (exists t; reflexivity).
  destruct (Hk a (out +:+ t)) as [t' Ht'].
  exists (t +:+ t'). rewrite Ht'. apply append_assoc.
Qed.

Lemma appends_print (s : string) : appends (print s).
Proof. intros out. exists s. reflexivity. Qed.

Lemma appends_lift {A} (o : outcome A) : appends (lift o).
Proof. intros out. exists EmptyString. cbn. symmetry. apply append_empty_r. Qed.

Lemma appends_for_each (n : nat) (i : Z) (body : Z -> M string unit) :
  (forall j, appends (body j)) -> appends (for_each n i body).
Proof.
  intros Hbody. revert i. induction n as [ | n IH]; intros i.
  - intros out. exists EmptyString. cbn. symmetry. apply append_empty_r.
  - cbn [for_each]. apply appends_bind; [ apply Hbody | intros _; apply IH ].
Qed.

Lemma appends_dump_paragraph (m : memory) (addr : Z) :
  appends (dump_paragraph m addr).
Proof.
  unfold dump_paragraph.
  repeat first
    [ apply appends_print
    | apply appends_lift
    | apply appends_for_each; intros ?
    | apply appends_bind; [ | intros ? ] ].
Qed.

(** However the loop ends, its output is a sequence of whole rows of the
    window, followed by the beginning of one more row only when a row ran
    into the exception of [at]. *)
Lemma dump_loop_output (m : memory) (end_ : Z) :
  memory_inv m ->
  forall (fuel : nat) (i : Z) (out : string),
    is_address i ->
    exists (rows : list Z) (tail : string),
      fst (dump_loop fuel m i end_ out) =
        out +:+ concat_text
                  (map (fun a => row_text a
                                   (row_bytes m a (Z.to_nat (column_count m))))
                       rows) +:+ tail /\
      Forall (fun a => BEGIN <= a /\ a + column_count m <= END + 1) rows /\
      (snd (dump_loop fuel m i end_ out) <> Throw OutOfRange ->
       tail = EmptyString).
Proof.
  intros Hinv.
  induction fuel as [ | fuel IH]; intros i out Hi; cbn [dump_loop].
  - exists [], EmptyString. cbn. rewrite append_empty_r. auto.
  - destruct (i <? end_).
    + unfold bind.
      destruct (appends_dump_paragraph m i out) as [t Ht].
      destruct (dump_paragraph m i out) as [s1 r1] eqn:E.
      cbn [fst] in Ht. subst s1.
      destruct r1 as [[] | e | | ].
      * destruct (dump_paragraph_ok_inv _ _ _ _ Hinv Hi E) as [Hlo Hhi].
        rewrite dump_paragraph_row in E by assumption.
        injection E as E.
        destruct (IH (to_address (i + PARAGRAPH)) (out +:+ t)
                    (to_address_is_address _)) as (rows & tail & Hout & Hall & Htail).
        exists (i :: rows), tail. split; [ | split ].
        -- rewrite Hout, <- E. cbn [map concat_text].
           rewrite !append_assoc. reflexivity.
        -- constructor; [ split; assumption | exact Hall ].
        -- exact Htail.
      * exists [], t. cbn [fst snd map concat_text]. split; [ reflexivity | ].
        split; [ constructor | ].
        intros Hne. exfalso.
        apply (never_dump_paragraph (Thrown e) m i
                 ltac:(discriminate) ltac:(congruence) out).
        rewrite E. reflexivity.
      * exfalso.
        apply (never_dump_paragraph Undefined_behaviour m i
                 ltac:(discriminate) ltac:(discriminate) out).
        rewrite E. reflexivity.
      * exfalso.
        apply (never_dump_paragraph Still_running m i
                 ltac:(discriminate) ltac:(discriminate) out).
        rewrite E. reflexivity.
    + exists [], EmptyString. cbn. rewrite append_empty_r. auto.
Qed.

(** ** The invariant of built blocks *)

Lemma write_inv (m m' : memory) (a : Z) (v : byte) :
  memory_inv m -> write m a v = Ok m' -> memory_inv m'.
Proof.
  intros [Hlen Hcol]. unfold write, at_put.
  destruct (decide _); intros [= <-]. unfold memory_inv; cbn [bytes column_count].
  rewrite length_insert. split; assumption.
Qed.

Lemma built_inv (m : memory) : built m -> memory_inv m.
Proof.
  induction 1 as [draw m H | b m H | opens fs filename m H | m m' a v _ IH H
                 | m b begin end_ _ IH | m draw lo hi _ IH
                 | m opens fs filename _ IH].
  - exact (proj1 (constructors_inv m) draw H).
  - exact (proj1 (proj2 (constructors_inv m)) b H).
  - exact (proj2 (proj2 (constructors_inv m)) opens fs filename H).
  - exact (write_inv m m' a v IH H).
  - apply fill_inv, IH.
  - apply randomize_inv, IH.
  - apply load_inv, IH.
Qed.

(** C8: every row of a built block is written in the row format: ["$"], the
    four upper-case hexadecimal digits of the row's address, a space; two
    upper-case hexadecimal digits and a space for each column; ["| "]; for
    each column the character of the byte, or a dot for the bytes 0-31 and
    127; [" |"] and a line break.  The bytes of a row are those stored at the
    row's address and the following addresses, and the number of columns is
    [min(size(), 16)], the count the constructors set, for every row.
    [dump_paragraph] writes exactly this text for each row inside the window,
    and the output of [dump], however the call ends, is a sequence of such
    rows; only a call that ends with the [OutOfRange] of a row running out
    of the block leaves the beginning of that row after them. *)
Theorem dump_rows_format (m : memory) :
  built m ->
  column_count m = Z.min size 16 /\
  (forall (addr : Z) (out : string),
     BEGIN <= addr -> addr + Z.min size 16 <= END + 1 ->
     dump_paragraph m addr out =
       (out +:+ row_text addr (row_bytes m addr (Z.to_nat (Z.min size 16))),
        Ok tt)) /\
  (forall (begin end_ : Z) (out : string),
     is_address begin ->
     exists (rows : list Z) (tail : string),
       fst (dump m begin end_ out) =
         out +:+ concat_text
                   (map (fun a => row_text a
                                    (row_bytes m a (Z.to_nat (Z.min size 16))))
                        rows) +:+ tail /\
       Forall (fun a => BEGIN <= a /\ a + Z.min size 16 <= END + 1) rows /\
       (snd (dump m begin end_ out) <> Throw OutOfRange -> tail = EmptyString)).
Proof.
  intros Hbuilt. pose proof (built_inv m Hbuilt) as Hinv.
  assert (Hcol : column_count m = Z.min size 16) by apply Hinv.
  split; [ exact Hcol | ]. rewrite <- Hcol. split.
  - intros addr out Hlo Hhi. apply dump_paragraph_row; assumption.
  - intros begin end_ out Hbegin. unfold dump.
    destruct (_ >? _).
    + exists [], EmptyString. cbn. rewrite append_empty_r. auto.
    + apply dump_loop_output; assumption.
Qed.

(** C9, as the code has it: for a span [[begin, end_)] inside the window
    whose rows all lie inside the block, [dump] returns after writing the
    rows at [begin], [begin + 16], ... below [end_], and every one of them,
    the last included, shows the full [min(size(), 16)] bytes from its
    address on, whether or not they lie below [end_]. *)
Theorem dump_rows_whole (m : memory) (begin end_ : Z) (out : string) :
  built m ->
  BEGIN <= begin -> begin <= end_ -> end_ <= END + 1 ->
  let n := Z.to_nat ((end_ - begin + 15) / 16) in
  begin + 16 * (Z.of_nat n - 1) + Z.min size 16 <= END + 1 ->
  begin + 16 * Z.of_nat n < 65536 ->
  dump m begin end_ out =
    (out +:+ concat_text
               (map (fun a => row_text a
                                (row_bytes m a (Z.to_nat (Z.min size 16))))
                    (row_addresses begin n)),
     Ok tt).
Proof.
  intros Hbuilt Hlo Hle Hhi n Hlast Hwrap.
  pose proof (built_inv m Hbuilt) as Hinv.
  assert (Hcol : column_count m = Z.min size 16) by apply Hinv.
  pose proof size_window as Hsize.
  assert (Hq : 16 * Z.of_nat n <= end_ - begin + 15 < 16 * Z.of_nat n + 16).
  { subst n. rewrite Z2Nat.id by (apply Z.div_pos; lia).
    pose proof (Z.div_mod (end_ - begin + 15) 16 ltac:(lia)).
    pose proof (Z.mod_pos_bound (end_ - begin + 15) 16 ltac:(lia)). lia. }
  unfold dump. rewrite to_size_t_small by lia.
  destruct (Z.gtb_spec (end_ - begin) size); [ lia | ].
  rewrite <- Hcol.
  apply dump_loop_rows; unfold PARAGRAPH, dump_budget; try assumption; lia.
Qed.


(** ** The iteration budget of [dump] *)

Lemma to_address_next_row (i k : Z) :
  to_address (to_address (i + 16) + 16 * k) = to_address (i + 16 * (k + 1)).
Proof.
  unfold to_address, wrap. rewrite Zplus_mod_idemp_l. f_equal. lia.
Qed.

(** After 4096 rows the counter is back where it was. *)
Lemma to_address_period (i k : Z) :
  to_address (i + 16 * k) = to_address (i + 16 * (k mod 4096)).
Proof.
  unfold to_address, wrap.
  rewrite (Z.div_mod k 4096) at 1 by lia.
  replace (i + 16 * (4096 * (k / 4096) + k mod 4096))
    with (i + 16 * (k mod 4096) + (k / 4096) * 2 ^ 16) by lia.
  apply Z.mod_add. lia.
Qed.

(** A loop still running when its fuel is spent has printed a whole row of
    the window, below [end_], at each step. *)
Lemma dump_loop_running_rows (m : memory) (end_ : Z) :
  memory_inv m ->
  forall (fuel : nat) (i : Z) (out out' : string),
    is_address i ->
    dump_loop fuel m i end_ out = (out', Running) ->
    forall k : nat, (k < fuel)%nat ->
      to_address (i + 16 * Z.of_nat k) < end_ /\
      BEGIN <= to_address (i + 16 * Z.of_nat k) /\
      to_address (i + 16 * Z.of_nat k) + column_count m <= END + 1.
Proof.
  intros Hinv.
  induction fuel as [ | fuel IH]; intros i out out' Hi Hrun k Hk; [ lia | ].
  cbn [dump_loop] in Hrun.
  destruct (Z.ltb_spec i end_) as [Hlt | _]; [ | discriminate ].
  unfold bind in Hrun.
  destruct (dump_paragraph m i out) as [s1 r1] eqn:E.
  destruct r1 as [[] | e | | ]; try discriminate.
  - destruct k as [ | k].
    + rewrite Z.mul_0_r, Z.add_0_r, to_address_small by exact Hi.
      split; [ exact Hlt | ].
      exact (dump_paragraph_ok_inv m i out s1 Hinv Hi E).
    + replace (Z.of_nat (S k)) with (Z.of_nat k + 1) by lia.
      rewrite <- to_address_next_row.
      apply (IH (to_address (i + PARAGRAPH)) s1 out');
        [ apply to_address_is_address | exact Hrun | lia ].
  - exfalso.
    apply (never_dump_paragraph Still_running m i
             ltac:(discriminate) ltac:(discriminate) out).
    rewrite E. reflexivity.
Qed.

(** A loop that finds a whole row of the window below [end_] at each step is
    still running when its fuel is spent. *)
Lemma dump_loop_rows_running (m : memory) (end_ : Z) :
  memory_inv m ->
  forall (fuel : nat) (i : Z) (out : string),
    is_address i ->
    (forall k : nat, (k < fuel)%nat ->
       to_address (i + 16 * Z.of_nat k) < end_ /\
       BEGIN <= to_address (i + 16 * Z.of_nat k) /\
       to_address (i + 16 * Z.of_nat k) + column_count m <= END + 1) ->
    snd (dump_loop fuel m i end_ out) = Running.
Proof.
  intros Hinv.
  induction fuel as [ | fuel IH]; intros i out Hi Hrows; [ reflexivity | ].
  cbn [dump_loop].
  pose proof (Hrows O ltac:(lia)) as H0.
  rewrite Z.mul_0_r, Z.add_0_r, to_address_small in H0 by exact Hi.
  destruct H0 as (Hlt & Hlo & Hhi).
  destruct (Z.ltb_spec i end_) as [_ | Hge]; [ | lia ].
  unfold bind. rewrite dump_paragraph_row by assumption.
  apply IH; [ apply to_address_is_address | ].
  intros k Hk. unfold PARAGRAPH. rewrite to_address_next_row.
  replace (Z.of_nat k + 1) with (Z.of_nat (S k)) by lia.
  apply Hrows. lia.
Qed.

(** The budget of [dump] loses nothing: when [dump] ends as [Running], the
    loop of the source is still running after any number of steps. *)
Lemma dump_running_forever (m : memory) (begin end_ : Z) (out : string) :
  memory_inv m -> is_address begin ->
  snd (dump m begin end_ out) = Running ->
  forall (fuel : nat) (out0 : string),
    snd (dump_loop fuel m begin end_ out0) = Running.
Proof.
  intros Hinv Hbegin Hrun fuel out0. unfold dump in Hrun.
  destruct (_ >? _); [ discriminate | ].
  destruct (dump_loop dump_budget m begin end_ out) as [out' r] eqn:E.
  cbn [snd] in Hrun. subst r.
  apply dump_loop_rows_running; [ exact Hinv | exact Hbegin | ].
  intros k _. rewrite to_address_period.
  pose proof (Z.mod_pos_bound (Z.of_nat k) 4096 ltac:(lia)) as Hmod.
  pose proof (dump_loop_running_rows m end_ Hinv _ _ _ _ Hbegin E
                (Z.to_nat (Z.of_nat k mod 4096))
                ltac:(unfold dump_budget; lia)) as H.
  rewrite Z2Nat.id in H by lia. exact H.
Qed.

(** A loop that ends within some number of steps ends in the same way, with
    the same output, under any larger budget. *)
Lemma dump_loop_more_fuel (m : memory) (end_ : Z) :
  forall (fuel fuel' : nat) (i : Z) (out out' : string) (r : outcome unit),
    (fuel <= fuel')%nat -> r <> Running ->
    dump_loop fuel m i end_ out = (out', r) ->
    dump_loop fuel' m i end_ out = (out', r).
Proof.
  induction fuel as [ | fuel IH]; intros fuel' i out out' r Hle Hr Hrun.
  - cbn in Hrun. injection Hrun as _ <-. contradiction.
  - destruct fuel' as [ | fuel']; [ lia | ]. cbn [dump_loop] in *.
    destruct (i <? end_); [ | exact Hrun ].
    unfold bind in *.
    destruct (dump_paragraph m i out) as [s1 [[] | e | | ]]; try exact Hrun.
    apply (IH fuel'); [ lia | exact Hr | exact Hrun ].
Qed.

(** ** Loops of assignments, on the array alone *)

Lemma for_each_on_bytes (n : nat) (i : Z) (f : Z -> list byte -> outcome (list byte))
    (m : memory) :
  for_each n i (fun a => on_bytes (f a)) m =
  (mk_memory (column_count m)
     (fst (for_each n i (fun a => on_list (f a)) (bytes m))),
   snd (for_each n i (fun a => on_list (f a)) (bytes m))).
Proof.
  revert i m. induction n as [ | n IH]; intros i m; cbn [for_each].
  - destruct m; reflexivity.
  - unfold bind. unfold on_bytes at 1. unfold on_list at 1 3.
    destruct (f i (bytes m)) as [bs | e | | ]; try (destruct m; reflexivity).
    rewrite IH. reflexivity.
Qed.

Lemma legacy_for_each_on_bytes (n : nat) (i : Z)
    (f : Z -> list byte -> outcome (list byte)) (m : Legacy.memory) :
  for_each n i (fun a => Legacy.on_bytes (f a)) m =
  (Legacy.mk_memory
     (fst (for_each n i (fun a => on_list (f a)) (Legacy.bytes m))),
   snd (for_each n i (fun a => on_list (f a)) (Legacy.bytes m))).
Proof.
  revert i m. induction n as [ | n IH]; intros i m; cbn [for_each].
  - destruct m; reflexivity.
  - unfold bind. unfold Legacy.on_bytes at 1. unfold on_list at 1 3.
    destruct (f i (Legacy.bytes m)) as [bs | e | | ]; try (destruct m; reflexivity).
    rewrite IH. reflexivity.
Qed.

(** A loop of [at(c + a) = val a] whose indices all lie in the array returns
    normally, and each element it ran over holds the value assigned to it. *)
Lemma assign_all_list (c : Z) (val : Z -> byte) (n : nat) :
  forall (i : Z) (bs : list byte),
    0 <= c + i ->
    c + i + Z.of_nat n <= Z.of_nat (length bs) ->
    Z.of_nat (length bs) < 2 ^ 64 ->
    exists bs',
      for_each n i (fun a => on_list (fun l => at_put l (to_size_t (c + a)) (val a)))
        bs = (bs', Ok tt) /\
      length bs' = length bs /\
      forall j : nat,
        bs' !! j =
          if decide (Z.to_nat (c + i) <= j < Z.to_nat (c + i) + n)%nat
          then Some (val (Z.of_nat j - c)) else bs !! j.
Proof.
  induction n as [ | n IH]; intros i bs Hlo Hhi Hmax; cbn [for_each].
  - exists bs. split; [ reflexivity | ]. split; [ reflexivity | ].
    intros j. destruct (decide _) as [H | _]; [ lia | reflexivity ].
  - unfold bind. unfold on_list at 1. unfold at_put at 1.
    rewrite to_size_t_small by lia.
    destruct (decide _) as [_ | Hn]; [ | lia ].
    destruct (IH (i + 1) (<[Z.to_nat (c + i) := val i]> bs))
      as (bs' & Hrun & Hlen & Hget); rewrite ?length_insert; try lia.
    exists bs'. split; [ exact Hrun | ]. split; [ rewrite Hlen; apply length_insert | ].
    intros j. rewrite Hget.
    replace (Z.to_nat (c + (i + 1))) with (S (Z.to_nat (c + i))) by lia.
    destruct (decide (S (Z.to_nat (c + i)) <= j < S (Z.to_nat (c + i)) + n)%nat)
      as [H1 | H1].
    + destruct (decide _) as [_ | H2]; [ reflexivity | lia ].
    + destruct (decide (Z.to_nat (c + i) = j)) as [<- | Hne].
      * rewrite list_lookup_insert_eq by lia.
        destruct (decide _) as [_ | H2]; [ | lia ].
        do 2 f_equal. lia.
      * rewrite list_lookup_insert_ne by exact Hne.
        destruct (decide _) as [H2 | _]; [ lia | reflexivity ].
Qed.

(** However such a loop ends, the elements before its first index and from
    its last index on are as they were, and so is the length. *)
Lemma assign_frame_list (c : Z) (val : Z -> byte) (n : nat) :
  forall (i : Z) (bs : list byte),
    0 <= c + i -> c + i + Z.of_nat n < 2 ^ 64 ->
    length (fst (for_each n i
                   (fun a => on_list (fun l => at_put l (to_size_t (c + a)) (val a)))
                   bs)) = length bs /\
    forall j : nat,
      (j < Z.to_nat (c + i) \/ Z.to_nat (c + i) + n <= j)%nat ->
      fst (for_each n i
             (fun a => on_list (fun l => at_put l (to_size_t (c + a)) (val a)))
             bs) !! j = bs !! j.
Proof.
  induction n as [ | n IH]; intros i bs Hlo Hhi; cbn [for_each].
  - split; reflexivity.
  - unfold bind.
    destruct (on_list _ bs) as [s1 r1] eqn:E.
    unfold on_list, at_put in E. rewrite to_size_t_small in E by lia.
    destruct (decide _) as [Hin | Hout]; injection E as <- <-;
      [ | split; reflexivity ].
    destruct (IH (i + 1) (<[Z.to_nat (c + i) := val i]> bs)) as [Hlen Hget];
      try lia.
    split.
    + rewrite Hlen. apply length_insert.
    + intros j Hj. rewrite Hget by lia.
      apply list_lookup_insert_ne. lia.
Qed.

(** ** Filling, continued *)

(** X1: [fill] never writes outside the span it is given: for a span that starts
    in the window, every byte of the window outside [[begin, end_)] is as it
    was, however the call ends, and the class invariant is kept. *)
Theorem fill_keeps_outside_span (m : memory) (v : byte) (begin end_ : Z) :
  memory_inv m ->
  BEGIN <= begin -> begin <= end_ -> is_address end_ ->
  memory_inv (fst (fill v begin end_ m)) /\
  forall a, BEGIN <= a <= END -> ~ (begin <= a < end_) ->
    read (fst (fill v begin end_ m)) a = read m a.
Proof.
  intros Hinv Hlo Hle Hend. split; [ apply fill_inv; exact Hinv | ].
  intros a Ha Hout. unfold is_address in Hend. unfold fill.
  rewrite (to_address_small (end_ - begin)) by lia.
  rewrite (to_address_small (begin - BEGIN)) by lia.
  destruct (_ >? _); [ reflexivity | ].
  pose proof (for_each_on_bytes
                (Z.to_nat (end_ - begin - (begin - BEGIN))) (begin - BEGIN)
                (fun i bs => at_put bs (to_size_t (begin - BEGIN + i)) v) m) as Hrun.
  cbn beta in Hrun. rewrite Hrun. clear Hrun.
  unfold read, at_; cbn [fst bytes].
  rewrite offset_in_window by exact Ha.
  destruct (assign_frame_list (begin - BEGIN) (fun _ => v)
              (Z.to_nat (end_ - begin - (begin - BEGIN))) (begin - BEGIN) (bytes m))
    as [_ Hget]; try lia.
  rewrite Hget by lia. reflexivity.
Qed.

(** X2: [fill] from the lower bound: for every [end_] from [BEGIN] to [END + 1]
    the call returns, every byte of [[BEGIN, end_)] is [v], every other byte
    of the window is as it was, and the class invariant is kept. *)
Theorem fill_prefix (m : memory) (v : byte) (end_ : Z) :
  memory_inv m ->
  BEGIN <= end_ <= END + 1 -> is_address end_ ->
  exists m',
    fill v BEGIN end_ m = (m', Ok tt) /\
    memory_inv m' /\
    forall a, BEGIN <= a <= END ->
      read m' a = if decide (a < end_) then Ok v else read m a.
Proof.
  intros Hinv Hspan Hend.
  destruct (fill_from_begin m v end_ Hinv Hspan Hend) as (m' & Hrun & Hread).
  exists m'. split; [ exact Hrun | ]. split; [ | exact Hread ].
  pose proof (fill_inv v BEGIN end_ m Hinv) as H. rewrite Hrun in H. exact H.
Qed.

Lemma to_address_minus (x y : Z) :
  to_address (to_address x - y) = to_address (x - y).
Proof. unfold to_address, wrap. apply Zminus_mod_idemp_l. Qed.

(** X3: [memory(byte_t b)]: unless the window is the whole 64K address space,
    the constructor returns a block that holds [b] at every address of the
    window. *)
Theorem memory_byte_all (b : byte) :
  size < 65536 ->
  exists m,
    memory_byte b = Ok m /\
    memory_inv m /\
    forall a, BEGIN <= a <= END -> read m a = Ok b.
Proof.
  intros Hsmall. pose proof size_window as Hsize.
  pose proof initial_inv as Hinv.
  unfold memory_byte, construct.
  assert (Hrun : exists m', fill b default_begin default_end initial = (m', Ok tt) /\
            forall a, BEGIN <= a <= END -> read m' a = Ok b).
  { unfold fill, default_begin, default_end.
    rewrite to_address_minus, Z.sub_diag.
    rewrite (to_address_small 0) by lia.
    rewrite (to_address_small (END + 1 - BEGIN)) by lia.
    rewrite Z.sub_0_r, to_size_t_small by lia.
    destruct (Z.gtb_spec (END + 1 - BEGIN) size) as [Hgt | _]; [ lia | ].
    destruct Hinv as [Hlen _].
    rewrite for_each_at_put by lia.
    eexists; split; [ reflexivity | ].
    intros a Ha. rewrite read_put_range by (try assumption; lia).
    destruct (decide _) as [_ | Hn]; [ reflexivity | lia ]. }
  destruct Hrun as (m' & Hrun & Hread).
  pose proof (fill_inv b default_begin default_end initial Hinv) as Hinv'.
  rewrite Hrun in *. cbn [fst] in Hinv'.
  exists m'. split; [ reflexivity | ]. split; assumption.
Qed.

(** ** Random contents *)

Lemma byte_val_to_byte (x : Z) : byte_val (to_byte x) = x mod 256.
Proof.
  unfold to_byte, wrap. change (2 ^ 8) with 256.
  pose proof (Z.mod_pos_bound x 256 ltac:(lia)) as Hx.
  destruct (Byte.of_N (Z.to_N (x mod 256))) as [b | ] eqn:E.
  - apply Byte.to_of_N in E. unfold byte_val. rewrite E. lia.
  - apply Byte.of_N_None_iff in E. lia.
Qed.

(** [randomize] returns, whatever the generator draws, and stores at each
    address the byte of [min + draw % (max - min + 1)]. *)
Lemma randomize_all (draw : Z -> Z) (lo hi : Z) (m : memory) :
  memory_inv m ->
  exists m',
    randomize draw lo hi m = (m', Ok tt) /\
    memory_inv m' /\
    forall k, 0 <= k < size ->
      read m' (BEGIN + k) =
        Ok (to_byte (lo + draw k mod wrap 32 (hi - lo + 1))).
Proof.
  intros Hinv. pose proof size_window as Hsize.
  pose proof (randomize_inv draw lo hi m Hinv) as Hinv'.
  destruct Hinv as [Hlen Hcol].
  destruct (assign_all_list 0
              (fun addr => to_byte (lo + draw addr mod wrap 32 (hi - lo + 1)))
              (Z.to_nat size) 0 (bytes m))
    as (bs' & Hrun & Hlen' & Hget); try lia.
  pose proof (for_each_on_bytes (Z.to_nat size) 0
                (fun addr bs => at_put bs (to_size_t addr)
                   (to_byte (lo + draw addr mod wrap 32 (hi - lo + 1)))) m) as Hmem.
  cbn beta in Hmem.
  assert (Hlist : for_each (Z.to_nat size) 0
            (fun addr => on_list (fun bs => at_put bs (to_size_t addr)
               (to_byte (lo + draw addr mod wrap 32 (hi - lo + 1))))) (bytes m)
            = (bs', Ok tt)) by exact Hrun.
  rewrite Hlist in Hmem. cbn [fst snd] in Hmem.
  unfold randomize in *. rewrite Hmem in *. cbn [fst] in Hinv'.
  eexists; split; [ reflexivity | ]. split; [ exact Hinv' | ].
  intros k Hk. unfold read, at_; cbn [bytes].
  rewrite offset_in_window by lia. rewrite Hget.
  destruct (decide _) as [_ | Hn]; [ | lia ].
  replace (Z.of_nat (Z.to_nat (BEGIN + k - BEGIN)) - 0) with k by lia.
  reflexivity.
Qed.

(** X4: [randomize(min, max)] with [min <= max <= 255]: the call returns and
    every byte of the block lies between [min] and [max]. *)
Theorem randomize_within (draw : Z -> Z) (lo hi : Z) (m : memory) :
  memory_inv m ->
  0 <= lo -> lo <= hi -> hi <= 255 ->
  (forall k, 0 <= draw k) ->
  exists m',
    randomize draw lo hi m = (m', Ok tt) /\
    memory_inv m' /\
    forall a, BEGIN <= a <= END ->
      exists b, read m' a = Ok b /\ lo <= byte_val b <= hi.
Proof.
  intros Hinv Hlo Hle Hhi Hdraw. pose proof size_window as Hsize.
  destruct (randomize_all draw lo hi m Hinv) as (m' & Hrun & Hinv' & Hread).
  exists m'. split; [ exact Hrun | ]. split; [ exact Hinv' | ].
  intros a Ha. eexists. split.
  - specialize (Hread (a - BEGIN) ltac:(lia)).
    replace (BEGIN + (a - BEGIN)) with a in Hread by lia. exact Hread.
  - rewrite byte_val_to_byte.
    unfold wrap. rewrite (Z.mod_small (hi - lo + 1)) by lia.
    pose proof (Z.mod_pos_bound (draw (a - BEGIN)) (hi - lo + 1) ltac:(lia)).
    rewrite Z.mod_small by lia. lia.
Qed.

(** X5: [memory()]: the constructor returns for every sequence of draws, and the
    block holds at its [k]-th address the low eight bits of the [k]-th
    draw. *)
Theorem memory_random_all (draw : Z -> Z) :
  exists m,
    memory_random draw = Ok m /\
    memory_inv m /\
    forall k, 0 <= k < size ->
      read m (BEGIN + k) = Ok (to_byte (draw k mod 256)).
Proof.
  destruct (randomize_all draw 0 255 initial initial_inv)
    as (m & Hrun & Hinv & Hread).
  exists m. unfold memory_random, construct. rewrite Hrun.
  split; [ reflexivity | ]. split; [ exact Hinv | ].
  intros k Hk. rewrite (Hread k Hk). reflexivity.
Qed.

(** ** Spans given the wrong way round *)

(** X11: [dump] and [save] of a span whose end lies below its begin throw
    [Overflow] before any effect: the negative length, converted to
    [size_t], exceeds every block size. *)
Theorem reversed_span_overflow (opens : string -> bool) (m : memory)
    (filename : string) (begin end_ : Z) (out : string) (fs : filesystem) :
  is_address begin -> is_address end_ -> end_ < begin ->
  dump m begin end_ out = (out, Throw Overflow) /\
  save opens m filename begin end_ fs = (fs, Throw Overflow).
Proof.
  intros Hb He Hlt. unfold is_address in Hb, He.
  pose proof size_window as Hsize.
  assert (Hbig : to_size_t (end_ - begin) > size)
    by (rewrite to_size_t_negative by lia; lia).
  split.
  - exact (proj1 (dump_overflow m begin end_ out) Hbig).
  - exact (proj1 (save_overflow opens m filename begin end_ fs) Hbig).
Qed.

(** ** Loading and saving, continued *)

(** X7: [load] on an existing block is all or nothing: a call that does not
    return normally leaves the block as it was; on a regular file of at least
    [size()] bytes the call returns, with every byte of the block replaced by
    the byte of the file at the same offset and the column count unchanged
    when the input stream opens, and with the block as it was when the stream
    does not open. *)
Theorem load_all_or_nothing (opens : string -> bool) (fs : filesystem)
    (filename : string) (m : memory) :
  memory_inv m ->
  (snd (load opens fs filename m) <> Ok tt ->
   fst (load opens fs filename m) = m) /\
  (forall data, fs !! filename = Some (Regular data) ->
     size <= Z.of_nat (length data) ->
     (opens filename = true ->
        exists m',
          load opens fs filename m = (m', Ok tt) /\
          memory_inv m' /\
          column_count m' = column_count m /\
          forall (k : nat) (b : byte), Z.of_nat k < size ->
            data !! k = Some b -> read m' (BEGIN + Z.of_nat k) = Ok b) /\
     (opens filename = false -> load opens fs filename m = (m, Ok tt))).
Proof.
  intros Hinv. pose proof size_window as Hsize. split.
  - unfold load.
    destruct (fs !! filename) as [[data | ] | ]; [ | reflexivity .. ].
    destruct (_ <? _); [ reflexivity | ].
    destruct (opens filename); [ | reflexivity ].
    unfold on_bytes. cbn [snd]. intros H. contradiction.
  - intros data Hdata Hlong.
    pose proof (load_inv opens fs filename m Hinv) as Hinv'.
    unfold load in *. rewrite Hdata in *.
    destruct (Z.ltb_spec (Z.of_nat (length data)) size); [ lia | ].
    split; intros Hopen; rewrite Hopen in *; [ | reflexivity ].
    unfold on_bytes in *. cbn [fst] in Hinv'.
    eexists; split; [ reflexivity | ]. split; [ exact Hinv' | ].
    split; [ reflexivity | ].
    intros k b Hk Hb. unfold read, at_; cbn [bytes].
    rewrite offset_in_window by lia.
    replace (Z.to_nat (BEGIN + Z.of_nat k - BEGIN)) with k by lia.
    rewrite lookup_app_l by (rewrite length_take; lia).
    rewrite lookup_take_lt by lia. rewrite Hb. reflexivity.
Qed.


(** X9: [save] never overwrites what it has written.  After a call that
    returned with the output stream open, every further [save] to the same
    path, from any block and with any span, throws [AlreadyExists] or
    [Overflow] and leaves the file system as the first call left it.  After a
    call that returned without the stream opening there is no file to
    protect: the file system is as it was before the call. *)
Theorem save_then_save (opens : string -> bool) (m m2 : memory)
    (filename : string) (begin end_ begin2 end2 : Z) (fs fs' : filesystem) :
  save opens m filename begin end_ fs = (fs', Ok tt) ->
  (opens filename = true ->
     exists e,
       save opens m2 filename begin2 end2 fs' = (fs', Throw e) /\
       (e = AlreadyExists \/ e = Overflow)) /\
  (opens filename = false -> fs' = fs).
Proof.
  intros Hrun. unfold save in Hrun.
  destruct (_ >? _); [ discriminate | ].
  destruct (fs !! filename); [ discriminate | ].
  split; intros Hopen; rewrite Hopen in Hrun.
  - destruct (_ <=? _); [ | discriminate ].
    injection Hrun as <-.
    unfold save. destruct (_ >? _).
    + exists Overflow. split; [ reflexivity | right; reflexivity ].
    + cbn beta. unfold filesystem in *. rewrite lookup_insert_eq.
      exists AlreadyExists. split; [ reflexivity | left; reflexivity ].
  - destruct (_ <=? _); [ | discriminate ].
    injection Hrun as <-. reflexivity.
Qed.

(** The file a [save] of a span inside the window writes to a fresh path on
    which the output stream opens. *)
Lemma save_fresh_span (opens : string -> bool) (m : memory) (filename : string)
    (begin end_ : Z) (fs : filesystem) :
  memory_inv m -> fs !! filename = None -> opens filename = true ->
  BEGIN <= begin -> begin <= end_ -> end_ <= END + 1 -> is_address end_ ->
  save opens m filename begin end_ fs =
    (<[filename := Regular (take (Z.to_nat (end_ - begin))
                              (drop (Z.to_nat (begin - BEGIN)) (bytes m)))]> fs,
     Ok tt).
Proof.
  intros [Hlen _] Hfresh Hopen Hlo Hle Hhi Hend. pose proof size_window as Hsize.
  unfold is_address in Hend.
  unfold save. rewrite to_size_t_small by lia.
  destruct (Z.gtb_spec (end_ - begin) size); [ lia | ].
  rewrite Hfresh, Hopen. rewrite to_address_small by lia.
  destruct (Z.leb_spec (begin - BEGIN + (end_ - begin))
              (Z.of_nat (length (bytes m)))) as [_ | Hbad]; [ | lia ].
  reflexivity.
Qed.

(** Construction from a file of exactly [size()] bytes on which the input
    stream opens. *)
Lemma memory_file_exact (opens : string -> bool) (fs : filesystem)
    (filename : string) (data : list byte) :
  fs !! filename = Some (Regular data) -> opens filename = true ->
  Z.of_nat (length data) = size ->
  exists m, memory_file opens fs filename = Ok m /\ bytes m = data /\ memory_inv m.
Proof.
  intros Hdata Hopen Hlen. pose proof size_window as Hsize.
  pose proof (load_inv opens fs filename initial initial_inv) as Hinv.
  unfold memory_file, construct, load in *. rewrite Hdata, Hopen in *.
  destruct (Z.ltb_spec (Z.of_nat (length data)) size); [ lia | ].
  unfold on_bytes, initial in *; cbn [bytes column_count fst] in *.
  eexists; split; [ reflexivity | ]. split; [ | exact Hinv ].
  cbn [bytes].
  rewrite (drop_ge (replicate _ _)) by (rewrite length_replicate; lia).
  rewrite app_nil_r. apply take_ge. lia.
Qed.

(** ** Dumps that run out of the block *)

(** A row that does not lie in the window ends with the exception of [at]. *)
Lemma dump_paragraph_outside (m : memory) (addr : Z) (out : string) :
  memory_inv m -> is_address addr ->
  ~ (BEGIN <= addr /\ addr + column_count m <= END + 1) ->
  snd (dump_paragraph m addr out) = Throw OutOfRange.
Proof.
  intros Hinv Ha Hout.
  destruct (dump_paragraph m addr out) as [s r] eqn:E. cbn [snd].
  destruct r as [[] | e | | ].
  - exfalso. apply Hout. exact (dump_paragraph_ok_inv m addr out s Hinv Ha E).
  - destruct e; try reflexivity; exfalso;
      (eapply (never_dump_paragraph _ m addr); [ | | rewrite E; reflexivity ];
       discriminate).
  - exfalso.
    eapply (never_dump_paragraph Undefined_behaviour m addr);
      [ | | rewrite E; reflexivity ]; discriminate.
  - exfalso.
    eapply (never_dump_paragraph Still_running m addr);
      [ | | rewrite E; reflexivity ]; discriminate.
Qed.

(** [n] whole rows, then a row below [end_] that runs out of the block. *)
Lemma dump_loop_rows_then_fail (m : memory) (end_ : Z) :
  memory_inv m ->
  forall (n fuel : nat) (i : Z) (out : string),
    (n < fuel)%nat ->
    BEGIN <= i -> i + PARAGRAPH * Z.of_nat n < 65536 ->
    (forall k : nat, (k < n)%nat ->
       i + PARAGRAPH * Z.of_nat k < end_ /\
       i + PARAGRAPH * Z.of_nat k + column_count m <= END + 1) ->
    i + PARAGRAPH * Z.of_nat n < end_ ->
    END + 1 < i + PARAGRAPH * Z.of_nat n + column_count m ->
    snd (dump_loop fuel m i end_ out) = Throw OutOfRange /\
    exists tail,
      fst (dump_loop fuel m i end_ out) =
        out +:+ concat_text
                  (map (fun a => row_text a
                                   (row_bytes m a (Z.to_nat (column_count m))))
                       (row_addresses i n)) +:+ tail.
Proof.
  intros Hinv. unfold PARAGRAPH.
  induction n as [ | n IH]; intros fuel i out Hfuel Hlo Hwrap Hrows Hlast Hout;
    (destruct fuel as [ | fuel]; [ lia | ]); cbn [dump_loop].
  - rewrite Z.mul_0_r, Z.add_0_r in Hlast, Hout, Hwrap.
    destruct (Z.ltb_spec i end_); [ | lia ].
    unfold bind.
    pose proof (dump_paragraph_outside m i out Hinv ltac:(unfold is_address; lia)
                  ltac:(lia)) as Hthrow.
    destruct (appends_dump_paragraph m i out) as [t Ht].
    destruct (dump_paragraph m i out) as [s1 r1].
    cbn [fst snd] in *. subst s1 r1. split; [ reflexivity | ].
    exists t. reflexivity.
  - destruct (Hrows O ltac:(lia)) as [H0 H1].
    rewrite Z.mul_0_r, Z.add_0_r in H0, H1.
    destruct (Z.ltb_spec i end_); [ | lia ].
    unfold bind. rewrite dump_paragraph_row by assumption.
    unfold PARAGRAPH. rewrite to_address_small by lia.
    destruct (IH fuel (i + 16)
                (out +:+ row_text i (row_bytes m i (Z.to_nat (column_count m)))))
      as [Hthrow [tail Htail]]; try lia.
    + intros k Hk. specialize (Hrows (S k) ltac:(lia)). lia.
    + split; [ exact Hthrow | ].
      exists tail. rewrite Htail, row_addresses_S. cbn [map concat_text].
      unfold PARAGRAPH. rewrite !append_assoc. reflexivity.
Qed.

(** X12: [dump] of a span inside the window whose last row does not fit in the
    block, as the default span of a block of more than 16 bytes whose size
    is no multiple of 16: the rows before the last are written whole and the
    call ends with [OutOfRange] in the last row. *)
Theorem dump_last_row_outside (m : memory) (begin end_ : Z) (out : string) :
  built m ->
  BEGIN <= begin -> begin < end_ -> end_ <= END + 1 -> is_address end_ ->
  let n := Z.to_nat ((end_ - begin + 15) / 16) in
  END + 1 < begin + 16 * (Z.of_nat n - 1) + Z.min size 16 ->
  snd (dump m begin end_ out) = Throw OutOfRange /\
  exists tail,
    fst (dump m begin end_ out) =
      out +:+ concat_text
                (map (fun a => row_text a
                                 (row_bytes m a (Z.to_nat (Z.min size 16))))
                     (row_addresses begin (n - 1))) +:+ tail.
Proof.
  intros Hbuilt Hlo Hlt Hhi Hend n Hlast.
  pose proof (built_inv m Hbuilt) as Hinv.
  assert (Hcol : column_count m = Z.min size 16) by apply Hinv.
  pose proof size_window as Hsize. unfold is_address in Hend.
  assert (Hq : 16 * Z.of_nat n <= end_ - begin + 15 < 16 * Z.of_nat n + 16).
  { subst n. rewrite Z2Nat.id by (apply Z.div_pos; lia).
    pose proof (Z.div_mod (end_ - begin + 15) 16 ltac:(lia)).
    pose proof (Z.mod_pos_bound (end_ - begin + 15) 16 ltac:(lia)). lia. }
  unfold dump. rewrite to_size_t_small by lia.
  destruct (Z.gtb_spec (end_ - begin) size); [ lia | ].
  rewrite <- Hcol in *.
  apply dump_loop_rows_then_fail; unfold PARAGRAPH, dump_budget;
    try assumption; lia.
Qed.

(** ** The program *)

Lemma bind_run {S A B} (c : M S A) (k : A -> M S B) (s s' : S) (a : A) :
  c s = (s', Ok a) -> bind c k s = k a s'.
Proof. intros H. unfold bind. rewrite H. reflexivity. Qed.

(** X13: [main] on a window whose size is a multiple of 16 and whose end is below
    0xFFFF, as the window [0x1000, 0x2FFF] of [main.cpp]: whatever the
    generator draws, the program writes the banner, the size in decimal with
    [" bytes"], and one whole dump row for each 16 bytes of the block it
    built; it returns 0 and the handler is not run. *)
Theorem main_output (draw : Z -> Z) (what : exn -> string) (out : string) :
  size mod 16 = 0 -> END < 65535 ->
  exists rom,
    memory_random draw = Ok rom /\
    main draw what out =
      (out +:+ "Z80 Emulator" +:+ newline +:+
       decimal size +:+ " bytes" +:+ newline +:+
       concat_text
         (map (fun a => row_text a (row_bytes rom a 16))
              (row_addresses BEGIN (Z.to_nat (size / 16)))),
       Ok 0).
Proof.
  intros Hmul Hend. pose proof size_window as Hsize.
  destruct (randomize_all draw 0 255 initial initial_inv)
    as (rom & Hrun & Hinv & _).
  assert (Hrom : memory_random draw = Ok rom)
    by (unfold memory_random, construct; rewrite Hrun; reflexivity).
  exists rom. split; [ exact Hrom | ].
  assert (Hq : size = 16 * (size / 16))
    by (pose proof (Z.div_mod size 16 ltac:(lia)); lia).
  assert (Hcol : column_count rom = 16).
  { destruct Hinv as [_ ->]. unfold PARAGRAPH. lia. }
  assert (Hdump : forall o,
            dump rom default_begin default_end o =
              (o +:+ concat_text
                       (map (fun a => row_text a (row_bytes rom a 16))
                            (row_addresses BEGIN (Z.to_nat (size / 16)))),
               Ok tt)).
  { intros o. unfold dump, default_begin, default_end.
    rewrite to_address_small by lia. rewrite to_size_t_small by lia.
    destruct (Z.gtb_spec (END + 1 - BEGIN) size); [ lia | ].
    pose proof (dump_loop_rows rom (END + 1) Hinv (Z.to_nat (size / 16))
                  dump_budget BEGIN o) as Hrows.
    rewrite Hcol in Hrows. change (Z.to_nat 16) with 16%nat in Hrows.
    apply Hrows; unfold PARAGRAPH, dump_budget; lia. }
  unfold main.
  rewrite (bind_run _ _ out (out +:+ "Z80 Emulator" +:+ newline) tt) by reflexivity.
  unfold bind at 1. unfold try_catch.
  rewrite Hrom. unfold bind at 1, lift at 1.
  unfold bind at 1, print at 1. rewrite Hdump.
  unfold ret. rewrite !append_assoc. reflexivity.
Qed.

(** ** The earlier revision, continued *)

(** X14: The earlier [fill] does what its span says: for every span inside the
    window it returns, every byte of [[begin, end_)] is [v], every other
    byte of the window is as it was, and the array keeps its size. *)
Theorem legacy_fill_exact (m : Legacy.memory) (v : byte) (begin end_ : Z) :
  Legacy.size m = size ->
  BEGIN <= begin -> begin <= end_ -> end_ <= END + 1 -> is_address end_ ->
  exists m',
    Legacy.fill BEGIN begin end_ v m = (m', Ok tt) /\
    Legacy.size m' = Legacy.size m /\
    forall a, BEGIN <= a <= END ->
      Legacy.read BEGIN m' a =
        if decide (begin <= a < end_) then Ok v else Legacy.read BEGIN m a.
Proof.
  intros Hlen Hb Hbe He Hend. unfold is_address in Hend.
  unfold Legacy.size in *. rewrite size_window in Hlen.
  unfold Legacy.fill.
  rewrite (to_address_small (end_ - begin)) by lia.
  rewrite (to_address_small (begin - BEGIN)) by lia.
  rewrite legacy_for_each_at_put by lia.
  eexists; split; [ reflexivity | ]. cbn [Legacy.bytes]. split.
  - rewrite length_put_range. reflexivity.
  - intros a Ha. unfold Legacy.read, at_; cbn [Legacy.bytes].
    rewrite offset_in_window by exact Ha.
    rewrite lookup_put_range by lia.
    destruct (decide (_ <= _ < _)%nat) as [H1 | H1];
      destruct (decide (begin <= a < end_)) as [H2 | H2]; try reflexivity; lia.
Qed.

(** X15: The earlier [memory()] takes each draw modulo 255: the constructor
    returns for every sequence of draws, and no byte of the block it builds
    is 0xFF. *)
Theorem legacy_memory_random_below_ff (draw : Z -> Z) :
  (forall k, 0 <= draw k) ->
  exists m,
    Legacy.memory_random BEGIN END draw = Ok m /\
    Legacy.size m = size /\
    forall a, BEGIN <= a <= END ->
      exists b, Legacy.read BEGIN m a = Ok b /\
                b = to_byte (draw (a - BEGIN) mod 255) /\
                byte_val b <= 254.
Proof.
  intros Hdraw. pose proof size_window as Hsize.
  unfold Legacy.memory_random.
  assert (Hlen0 : length (Legacy.bytes (Legacy.initial BEGIN END)) = Z.to_nat size)
    by (unfold Legacy.initial; cbn [Legacy.bytes]; apply length_replicate).
  assert (Hn : Legacy.size (Legacy.initial BEGIN END) = size)
    by (unfold Legacy.size; lia).
  rewrite Hn.
  destruct (assign_all_list 0 (fun addr => to_byte (draw addr mod 255))
              (Z.to_nat size) 0 (Legacy.bytes (Legacy.initial BEGIN END)))
    as (bs' & Hrun & Hlen' & Hget); [ lia | lia | lia | ].
  pose proof (legacy_for_each_on_bytes (Z.to_nat size) 0
                (fun addr bs => at_put bs (to_size_t addr)
                                  (to_byte (draw addr mod 255)))
                (Legacy.initial BEGIN END)) as Hmem.
  cbn beta in Hmem.
  assert (Hlist : for_each (Z.to_nat size) 0
            (fun addr => on_list (fun bs => at_put bs (to_size_t addr)
               (to_byte (draw addr mod 255))))
            (Legacy.bytes (Legacy.initial BEGIN END)) = (bs', Ok tt)) by exact Hrun.
  rewrite Hlist in Hmem. cbn [fst snd] in Hmem. rewrite Hmem.
  eexists; split; [ reflexivity | ]. unfold Legacy.size; cbn [Legacy.bytes].
  split; [ lia | ].
  intros a Ha. eexists. split; [ | split; [ reflexivity | ] ].
  - unfold Legacy.read, at_; cbn [Legacy.bytes].
    rewrite offset_in_window by exact Ha. rewrite Hget.
    destruct (decide _) as [_ | Hn']; [ | lia ].
    replace (Z.of_nat (Z.to_nat (a - BEGIN)) - 0) with (a - BEGIN) by lia.
    reflexivity.
  - rewrite byte_val_to_byte.
    pose proof (Z.mod_pos_bound (draw (a - BEGIN)) 255 ltac:(lia)).
    rewrite Z.mod_small by lia. lia.
Qed.

Lemma never_legacy_dump_paragraph (x : ending) (m : Legacy.memory) (addr : Z) :
  x <> Returned -> x <> Thrown OutOfRange ->
  never x (Legacy.dump_paragraph BEGIN m addr).
Proof.
  intros Hx Hx'. unfold Legacy.dump_paragraph.
  repeat first
    [ apply never_print; exact Hx
    | apply never_fetch; [ exact Hx | exact Hx' ]
    | apply never_for_each; [ exact Hx | intros ? ]
    | apply never_bind; [ exact Hx | | intros ? ] ].
Qed.

(** X16: The earlier [dump] always asks for sixteen columns: on a block of fewer
    than 16 bytes every row, and so every dump of a non-empty span, ends
    with [OutOfRange]. *)
Theorem legacy_dump_small_block (m : Legacy.memory) (begin end_ : Z)
    (out : string) :
  Legacy.size m = size -> size < 16 ->
  is_address begin -> begin < end_ ->
  snd (Legacy.dump_paragraph BEGIN m begin out) = Throw OutOfRange /\
  snd (Legacy.dump BEGIN m begin end_ out) = Throw OutOfRange.
Proof.
  intros Hlen Hsmall Hb Hlt. unfold Legacy.size in Hlen.
  assert (Hrow : forall o, snd (Legacy.dump_paragraph BEGIN m begin o)
                           = Throw OutOfRange).
  { intros o.
    destruct (Legacy.dump_paragraph BEGIN m begin o) as [s r] eqn:E. cbn [snd].
    destruct r as [[] | e | | ].
    - exfalso. unfold Legacy.dump_paragraph in E.
      apply bind_ok_inv in E as (s1 & [] & _ & E). cbn zeta in E.
      apply bind_ok_inv in E as (s2 & [] & Hloop & _).
      pose proof (for_each_print_fetched (Legacy.bytes m)
                    (to_address (begin - BEGIN))
                    (fun b => format_0X 2 (byte_val b) +:+ " ")
                    _ _ _ _ Hloop 15%nat ltac:(lia)) as [b Hb'].
      unfold at_ in Hb'.
      destruct (Legacy.bytes m !! _) as [b' | ] eqn:E'; [ | discriminate ].
      apply lookup_lt_Some in E'.
      pose proof (to_address_is_address (begin - BEGIN)) as Hoff.
      unfold is_address in Hoff.
      rewrite to_size_t_small in E' by lia. lia.
    - destruct e; try reflexivity; exfalso;
        (eapply (never_legacy_dump_paragraph _ m begin);
         [ | | rewrite E; reflexivity ]; discriminate).
    - exfalso.
      eapply (never_legacy_dump_paragraph Undefined_behaviour m begin);
        [ | | rewrite E; reflexivity ]; discriminate.
    - exfalso.
      eapply (never_legacy_dump_paragraph Still_running m begin);
        [ | | rewrite E; reflexivity ]; discriminate. }
  split; [ apply Hrow | ].
  unfold Legacy.dump.
  assert (Hloop : forall fuel : nat, (0 < fuel)%nat ->
            snd (Legacy.dump_loop BEGIN fuel m begin end_ out) = Throw OutOfRange).
  { intros [ | fuel] Hfuel; [ lia | ]. cbn [Legacy.dump_loop].
    destruct (Z.ltb_spec begin end_); [ | lia ].
    unfold bind. specialize (Hrow out).
    destruct (Legacy.dump_paragraph BEGIN m begin out) as [s r].
    cbn [snd] in Hrow. subst r. reflexivity. }
  apply Hloop. lia.
Qed.

(** The characters are stored one after the other from [addr] on. *)
Lemma get_chars_stores (cs : list byte) :
  forall (addr : Z) (bs : list byte),
    0 <= addr ->
    addr + Z.of_nat (length cs) <= Z.of_nat (length bs) ->
    addr + Z.of_nat (length cs) < 65536 ->
    exists bs',
      Legacy.get_chars cs addr bs = (bs', Ok (addr + Z.of_nat (length cs))) /\
      length bs' = length bs /\
      forall j : nat,
        bs' !! j =
          if decide (Z.to_nat addr <= j < Z.to_nat addr + length cs)%nat
          then cs !! (j - Z.to_nat addr)%nat else bs !! j.
Proof.
  induction cs as [ | c cs IH]; intros addr bs Hlo Hfit Hwrap;
    cbn [Legacy.get_chars length] in *.
  - exists bs. rewrite Z.add_0_r. split; [ reflexivity | ].
    split; [ reflexivity | ].
    intros j. destruct (decide _) as [H | _]; [ lia | reflexivity ].
  - unfold at_put. rewrite to_size_t_small by lia.
    destruct (decide _) as [_ | Hn]; [ | lia ].
    rewrite to_address_small by lia.
    destruct (IH (addr + 1) (<[Z.to_nat addr := c]> bs))
      as (bs' & Hrun & Hlen & Hget); rewrite ?length_insert; try lia.
    exists bs'. split; [ rewrite Hrun; do 2 f_equal; lia | ].
    split; [ rewrite Hlen; apply length_insert | ].
    intros j. rewrite Hget.
    replace (Z.to_nat (addr + 1)) with (S (Z.to_nat addr)) by lia.
    destruct (decide (S (Z.to_nat addr) <= j < S (Z.to_nat addr) + length cs)%nat)
      as [H1 | H1].
    + destruct (decide _) as [_ | H2]; [ | lia ].
      replace (j - Z.to_nat addr)%nat with (S (j - S (Z.to_nat addr))) by lia.
      reflexivity.
    + destruct (decide (Z.to_nat addr = j)) as [<- | Hne].
      * rewrite list_lookup_insert_eq by lia.
        destruct (decide _) as [_ | H2]; [ | lia ].
        rewrite Nat.sub_diag. reflexivity.
      * rewrite list_lookup_insert_ne by exact Hne.
        destruct (decide _) as [H2 | _]; [ lia | reflexivity ].
Qed.

(** X17: The earlier file constructor: it throws [NotFound] for a missing path
    and [SizeMismatch] for a file longer than the block, without output;
    for a file of at most [size()] bytes it stores the characters the stream
    delivers from the lower bound on, leaves the rest of the block zero, and
    writes their number in decimal and a line break. *)
Theorem legacy_memory_file_outcomes (text_mode : list byte -> list byte)
    (fs : gmap string (list byte)) (filename : string) (out : string) :
  (fs !! filename = None ->
     Legacy.memory_file BEGIN END text_mode fs filename out =
       (out, Throw NotFound)) /\
  (forall data, fs !! filename = Some data ->
     size < Z.of_nat (length data) ->
     Legacy.memory_file BEGIN END text_mode fs filename out =
       (out, Throw SizeMismatch)) /\
  (forall data, fs !! filename = Some data ->
     Z.of_nat (length data) <= size ->
     (length (text_mode data) <= length data)%nat ->
     Z.of_nat (length (text_mode data)) < 65536 ->
     exists m,
       Legacy.memory_file BEGIN END text_mode fs filename out =
         (out +:+ decimal (Z.of_nat (length (text_mode data))) +:+ newline,
          Ok m) /\
       Legacy.size m = size /\
       forall k : nat, Z.of_nat k < size ->
         Legacy.read BEGIN m (BEGIN + Z.of_nat k) =
           Ok (match text_mode data !! k with Some c => c | None => x00 end)).
Proof.
  pose proof size_window as Hsize.
  assert (Hlen0 : length (Legacy.bytes (Legacy.initial BEGIN END)) = Z.to_nat size)
    by (unfold Legacy.initial; cbn [Legacy.bytes]; apply length_replicate).
  assert (Hn : Legacy.size (Legacy.initial BEGIN END) = size)
    by (unfold Legacy.size; lia).
  unfold Legacy.memory_file. rewrite Hn. split; [ | split ].
  - intros ->. reflexivity.
  - intros data -> Hlong.
    destruct (Z.ltb_spec size (Z.of_nat (length data))); [ reflexivity | lia ].
  - intros data -> Hfits Htext Hwrap.
    destruct (Z.ltb_spec size (Z.of_nat (length data))); [ lia | ].
    destruct (get_chars_stores (text_mode data) 0
                (Legacy.bytes (Legacy.initial BEGIN END)))
      as (bs' & Hrun & Hlen & Hget); try lia.
    rewrite Hrun. rewrite Z.add_0_l.
    eexists; split; [ unfold bind, print, ret; reflexivity | ].
    unfold Legacy.size; cbn [Legacy.bytes]. split; [ lia | ].
    intros k Hk. unfold Legacy.read, at_; cbn [Legacy.bytes].
    rewrite offset_in_window by lia.
    replace (Z.to_nat (BEGIN + Z.of_nat k - BEGIN)) with k by lia.
    rewrite Hget. change (Z.to_nat 0) with 0%nat. rewrite Nat.sub_0_r.
    destruct (decide _) as [Hin | Hout].
    + destruct (text_mode data !! k) as [c | ] eqn:E; [ reflexivity | ].
      apply lookup_ge_None in E. lia.
    + rewrite (proj2 (lookup_ge_None (text_mode data) k)) by lia.
      unfold Legacy.initial; cbn [Legacy.bytes].
      change (to_size_t (END - BEGIN + 1)) with size.
      rewrite lookup_replicate_2 by lia. reflexivity.
Qed.

(** ** Writes, one after the other *)

Lemma write_ok (m : memory) (a : Z) (v : byte) :
  memory_inv m -> BEGIN <= a <= END ->
  write m a v =
    Ok (mk_memory (column_count m) (<[Z.to_nat (a - BEGIN) := v]> (bytes m))).
Proof.
  intros [Hlen _] Ha. pose proof size_window as Hsize.
  unfold write, at_put. rewrite offset_in_window by exact Ha.
  destruct (decide _) as [_ | Hn]; [ reflexivity | lia ].
Qed.

(** X6: Two writes at different addresses of the window give the same block in
    either order, and of two writes at the same address the second is the
    one that stays. *)
Theorem write_write (m : memory) (a1 a2 : Z) (v1 v2 : byte) :
  memory_inv m ->
  BEGIN <= a1 <= END -> BEGIN <= a2 <= END ->
  exists m1 m2 m12 m21,
    write m a1 v1 = Ok m1 /\ write m1 a2 v2 = Ok m12 /\
    write m a2 v2 = Ok m2 /\ write m2 a1 v1 = Ok m21 /\
    (a1 <> a2 -> m12 = m21) /\
    (a1 = a2 -> m12 = m2).
Proof.
  intros Hinv H1 H2.
  pose proof (write_ok m a1 v1 Hinv H1) as E1.
  pose proof (write_ok m a2 v2 Hinv H2) as E2.
  pose proof (write_ok _ a2 v2 (write_inv _ _ _ _ Hinv E1) H2) as E12.
  pose proof (write_ok _ a1 v1 (write_inv _ _ _ _ Hinv E2) H1) as E21.
  cbn [bytes column_count] in E12, E21.
  do 4 eexists.
  split; [ exact E1 | ]. split; [ exact E12 | ].
  split; [ exact E2 | ]. split; [ exact E21 | ].
  split.
  - intros Hne. f_equal. apply list_insert_insert_ne. lia.
  - intros ->. f_equal. apply list_insert_insert_eq.
Qed.

End Memory.

(** ** Concrete blocks *)

(** C3, in the window [0x1000, 0x100F]: the size test of [fill] compares
    [size()] with the span length minus the offset of [begin].  The 32-byte
    span [0x1020, 0x1040) passes it, and [fill] returns without an exception
    and without a write; the 17-byte span [0x1008, 0x1019) passes it too, and
    on the block [memory(0x00)] built the exception is the [OutOfRange] of
    the first assignment; the 2-byte span [0x1008, 0x100A), inside the block,
    throws [Overflow]. *)
Theorem fill_overflow_test_uses_offset (m : memory) (v : byte) :
  fill 4096 4111 v 4128 4160 m = (m, Ok tt) /\
  (memory_byte 4096 4111 x00 = Ok (mk_memory 16 (replicate 16 x00)) /\
   fill 4096 4111 v 4104 4121 (mk_memory 16 (replicate 16 x00)) =
     (mk_memory 16 (replicate 16 x00), Throw OutOfRange)) /\
  fill 4096 4111 v 4104 4106 m = (m, Throw Overflow).
Proof. repeat split; reflexivity. Qed.

(** C4, on the block [memory(0x00)] builds for the window [0x1000, 0x100F]:
    [fill] of the span [0x1002, 0x1006) returns normally with the bytes at
    0x1002 and 0x1003 still zero (only 0x1004 and 0x1005 are written), and
    [fill] of the span [0x1009, 0x100C) throws [Overflow]. *)
Theorem fill_inner_span_misses :
  memory_byte 4096 4111 x00 = Ok (mk_memory 16 (replicate 16 x00)) /\
  (exists m',
     fill 4096 4111 xaa 4098 4102 (mk_memory 16 (replicate 16 x00)) = (m', Ok tt) /\
     read 4096 m' 4098 = Ok x00 /\ read 4096 m' 4099 = Ok x00 /\
     read 4096 m' 4100 = Ok xaa /\ read 4096 m' 4101 = Ok xaa) /\
  fill 4096 4111 xaa 4105 4108 (mk_memory 16 (replicate 16 x00)) =
    (mk_memory 16 (replicate 16 x00), Throw Overflow).
Proof.
  split; [ vm_compute; reflexivity | ].
  split; [ eexists; split; [ vm_compute; reflexivity | ] | ].
  - repeat split; vm_compute; reflexivity.
  - vm_compute. reflexivity.
Qed.

(** C7, as the code has it: in a block of the window [0x1000, 0x100F] whose
    bytes are all 0xFF, [dump()] writes one line whose character column
    holds the sixteen bytes 0xFF themselves: as a [char] 0xFF is neither 127
    nor in the range 0-31. *)
Theorem dump_ff_block (m : memory) :
  memory_inv 4096 4111 m ->
  (forall a, 4096 <= a <= 4111 -> read 4096 m a = Ok xff) ->
  dump 4096 4111 m (default_begin 4096) (default_end 4111) EmptyString =
    ("$1000 FF FF FF FF FF FF FF FF FF FF FF FF FF FF FF FF | " +:+
     string_of_chars (replicate 16 (ascii_of_byte xff)) +:+ " |" +:+ newline,
     Ok tt).
Proof.
  intros [Hlen Hcol] Hff.
  assert (Hm : m = mk_memory 16 (replicate 16 xff)).
  { destruct m as [cc bs]; cbn [bytes column_count] in *. f_equal.
    - rewrite Hcol. reflexivity.
    - apply list_eq. intros i.
      change (Z.to_nat (size 4096 4111)) with 16%nat in Hlen.
      destruct (decide (i < 16)%nat) as [Hi | Hi].
      + specialize (Hff (4096 + Z.of_nat i) ltac:(lia)).
        unfold read, at_ in Hff; cbn [bytes] in Hff.
        rewrite to_size_t_small in Hff by lia.
        replace (Z.to_nat (4096 + Z.of_nat i - 4096)) with i in Hff by lia.
        rewrite lookup_replicate_2 by exact Hi.
        destruct (bs !! i); [ injection Hff as -> | discriminate ]. reflexivity.
      + rewrite !(proj2 (lookup_ge_None _ _));
          [ reflexivity | rewrite length_replicate; lia | lia ]. }
  subst m. vm_compute. reflexivity.
Qed.

Lemma dump_ff_block_witness :
  dump 4096 4111 (mk_memory 16 (replicate 16 xff))
       (default_begin 4096) (default_end 4111) EmptyString =
    ("$1000 FF FF FF FF FF FF FF FF FF FF FF FF FF FF FF FF | " +:+
     string_of_chars (replicate 16 (ascii_of_byte xff)) +:+ " |" +:+ newline,
     Ok tt).
Proof.
  apply (dump_ff_block (mk_memory 16 (replicate 16 xff))).
  - split; vm_compute; reflexivity.
  - intros a Ha.
    assert (H : exists k : nat, (k < 16)%nat /\ a = 4096 + Z.of_nat k)
      by (exists (Z.to_nat (a - 4096)); lia).
    destruct H as (k & Hk & ->).
    do 16 (destruct k as [ | k]; [ vm_compute; reflexivity | ]). lia.
Defined.

(** C7 as stated fails: the block the constructor fills with 0xFF is dumped
    with no dot in the character column, with or without the line break. *)
Lemma dump_ff_no_dots :
  memory_byte 4096 4111 xff = Ok (mk_memory 16 (replicate 16 xff)) /\
  dump 4096 4111 (mk_memory 16 (replicate 16 xff))
       (default_begin 4096) (default_end 4111) EmptyString <>
    ("$1000 FF FF FF FF FF FF FF FF FF FF FF FF FF FF FF FF | ................ |"
       +:+ newline, Ok tt) /\
  dump 4096 4111 (mk_memory 16 (replicate 16 xff))
       (default_begin 4096) (default_end 4111) EmptyString <>
    ("$1000 FF FF FF FF FF FF FF FF FF FF FF FF FF FF FF FF | ................ |",
     Ok tt).
Proof.
  split; [ vm_compute; reflexivity | ].
  split; intros H; vm_compute in H; discriminate H.
Qed.

(** C9 as stated fails.  In the window [0x1000, 0x101F], the block filled
    with 0x41 and the block obtained from it by writing 0x42 at 0x1004 hold
    the same bytes on the span [0x1000, 0x1004), yet their dumps of that span
    differ: the row shows all sixteen bytes from 0x1000, twelve of them at or
    past the end of the span. *)
Lemma dump_span_reads_past_end :
  memory_byte 4096 4127 x41 = Ok (mk_memory 16 (replicate 32 x41)) /\
  write 4096 (mk_memory 16 (replicate 32 x41)) 4100 x42 =
    Ok (mk_memory 16 (<[4%nat := x42]> (replicate 32 x41))) /\
  agree_on 4096 (mk_memory 16 (replicate 32 x41))
           (mk_memory 16 (<[4%nat := x42]> (replicate 32 x41))) 4096 4100 /\
  dump 4096 4127 (mk_memory 16 (replicate 32 x41)) 4096 4100 EmptyString =
    ("$1000 41 41 41 41 41 41 41 41 41 41 41 41 41 41 41 41 | AAAAAAAAAAAAAAAA |"
       +:+ newline, Ok tt) /\
  dump 4096 4127 (mk_memory 16 (<[4%nat := x42]> (replicate 32 x41)))
       4096 4100 EmptyString =
    ("$1000 41 41 41 41 42 41 41 41 41 41 41 41 41 41 41 41 | AAAABAAAAAAAAAAA |"
       +:+ newline, Ok tt) /\
  dump 4096 4127 (mk_memory 16 (replicate 32 x41)) 4096 4100 EmptyString <>
  dump 4096 4127 (mk_memory 16 (<[4%nat := x42]> (replicate 32 x41)))
       4096 4100 EmptyString.
Proof.
  split; [ vm_compute; reflexivity | ].
  split; [ vm_compute; reflexivity | ].
  split;
    [ | split; [ vm_compute; reflexivity | ];
        split; [ vm_compute; reflexivity | ];
        intros H; vm_compute in H; discriminate H ].
  intros a Ha.
  assert (H : exists k : nat, (k < 4)%nat /\ a = 4096 + Z.of_nat k)
    by (exists (Z.to_nat (a - 4096)); lia).
  destruct H as (k & Hk & ->).
  do 4 (destruct k as [ | k]; [ vm_compute; reflexivity | ]). lia.
Qed.

Lemma dump_rows_whole_witness :
  dump 4096 4127 (mk_memory 16 (replicate 32 x41)) 4096 4100 EmptyString =
    (EmptyString +:+
     concat_text
       (map (fun a => row_text a
                        (row_bytes 4096 (mk_memory 16 (replicate 32 x41)) a
                           (Z.to_nat (Z.min (size 4096 4127) 16))))
            (row_addresses 4096 (Z.to_nat ((4100 - 4096 + 15) / 16)))),
     Ok tt).
Proof.
  apply (dump_rows_whole 4096 4127).
  - lia.
  - apply (built_byte 4096 4127 x41). vm_compute. reflexivity.
  - lia.
  - lia.
  - lia.
  - vm_compute. discriminate.
  - vm_compute. reflexivity.
Defined.

(** C6 as stated fails: with the existing file [rom.bin] as the target and
    the 17-byte span [0x1000, 0x1011) of a 16-byte block, [save] throws
    [Overflow], not [AlreadyExists]. *)
Lemma save_existing_oversized_span :
  ({[ "rom.bin" := Regular [x01] ]} : filesystem) !! "rom.bin"
    = Some (Regular [x01]) /\
  save 4096 4111 (fun _ => true) (initial 4096 4111) "rom.bin" 4096 4113
       {[ "rom.bin" := Regular [x01] ]} =
    ({[ "rom.bin" := Regular [x01] ]}, Throw Overflow) /\
  save 4096 4111 (fun _ => true) (initial 4096 4111) "rom.bin" 4096 4113
       {[ "rom.bin" := Regular [x01] ]} <>
    ({[ "rom.bin" := Regular [x01] ]}, Throw AlreadyExists).
Proof.
  split; [ apply lookup_singleton_eq | ].
  assert (H : save 4096 4111 (fun _ => true) (initial 4096 4111) "rom.bin"
                4096 4113 ({[ "rom.bin" := Regular [x01] ]} : filesystem) =
              ({[ "rom.bin" := Regular [x01] ]}, Throw Overflow)) by reflexivity.
  split; [ exact H | rewrite H; discriminate ].
Qed.

Lemma save_outcomes_witness :
  save 4096 4111 (fun p => negb (String.eqb p "nodir/x.bin"))
       (initial 4096 4111) "rom.bin" 4096 4112
       {[ "rom.bin" := Regular [x01] ]} =
    ({[ "rom.bin" := Regular [x01] ]}, Throw AlreadyExists) /\
  save 4096 4111 (fun p => negb (String.eqb p "nodir/x.bin"))
       (initial 4096 4111) "rom.bin" 4096 4113
       {[ "rom.bin" := Regular [x01] ]} =
    ({[ "rom.bin" := Regular [x01] ]}, Throw Overflow) /\
  save 4096 4111 (fun p => negb (String.eqb p "nodir/x.bin"))
       (initial 4096 4111) "ram.bin" 4098 4100
       {[ "rom.bin" := Regular [x01] ]} =
    (<[ "ram.bin" := Regular (row_bytes 4096 (initial 4096 4111) 4098
                                (Z.to_nat (4100 - 4098))) ]>
       {[ "rom.bin" := Regular [x01] ]},
     Ok tt) /\
  save 4096 4111 (fun p => negb (String.eqb p "nodir/x.bin"))
       (initial 4096 4111) "nodir/x.bin" 4096 4100
       {[ "rom.bin" := Regular [x01] ]} =
    ({[ "rom.bin" := Regular [x01] ]}, Ok tt).
Proof.
  set (opens := fun p => negb (String.eqb p "nodir/x.bin")).
  assert (Hwin : 0 <= 4096 <= 4111 /\ 4111 < 65536) by lia.
  assert (Hinv : memory_inv 4096 4111 (initial 4096 4111))
    by (split; vm_compute; reflexivity).
  assert (Hrom : ({[ "rom.bin" := Regular [x01] ]} : filesystem) !! "rom.bin"
                 = Some (Regular [x01])) by (vm_compute; reflexivity).
  assert (Hram : ({[ "rom.bin" := Regular [x01] ]} : filesystem) !! "ram.bin"
                 = None) by (vm_compute; reflexivity).
  assert (Hnodir : ({[ "rom.bin" := Regular [x01] ]} : filesystem)
                     !! "nodir/x.bin" = None) by (vm_compute; reflexivity).
  assert (Ha : forall a, 0 <= a < 65536 -> is_address a) by (intros a H; exact H).
  split; [ | split; [ | split ] ].
  - destruct (save_outcomes 4096 4111 Hwin opens (initial 4096 4111)
                {[ "rom.bin" := Regular [x01] ]} "rom.bin" 4096 4112 Hinv
                (Ha 4096 ltac:(lia)) (Ha 4112 ltac:(lia))) as [Hexists _].
    destruct (Hexists (Regular [x01]) Hrom) as [Hfits _].
    apply Hfits. vm_compute. split; discriminate.
  - destruct (save_outcomes 4096 4111 Hwin opens (initial 4096 4111)
                {[ "rom.bin" := Regular [x01] ]} "rom.bin" 4096 4113 Hinv
                (Ha 4096 ltac:(lia)) (Ha 4113 ltac:(lia))) as [Hexists _].
    destruct (Hexists (Regular [x01]) Hrom) as [_ Hlong].
    apply Hlong. vm_compute. intros [_ H]. apply H. reflexivity.
  - destruct (save_outcomes 4096 4111 Hwin opens (initial 4096 4111)
                {[ "rom.bin" := Regular [x01] ]} "ram.bin" 4098 4100 Hinv
                (Ha 4098 ltac:(lia)) (Ha 4100 ltac:(lia))) as [_ Hfresh].
    destruct (Hfresh Hram ltac:(lia) ltac:(lia) ltac:(lia)) as [Hopen _].
    apply Hopen. vm_compute. reflexivity.
  - destruct (save_outcomes 4096 4111 Hwin opens (initial 4096 4111)
                {[ "rom.bin" := Regular [x01] ]} "nodir/x.bin" 4096 4100 Hinv
                (Ha 4096 ltac:(lia)) (Ha 4100 ltac:(lia))) as [_ Hfresh].
    destruct (Hfresh Hnodir ltac:(lia) ltac:(lia) ltac:(lia)) as [_ Hshut].
    apply Hshut. vm_compute. reflexivity.
Defined.

(** ** The theorems at concrete blocks *)

Lemma write_then_read_witness :
  exists m', write 4096 (initial 4096 4111) 4100 x41 = Ok m' /\
             read 4096 m' 4100 = Ok x41.
Proof.
  apply (write_then_read 4096 4111).
  - lia.
  - split; vm_compute; reflexivity.
  - lia.
Defined.

Lemma access_outside_window_witness :
  read 4096 (initial 4096 4111) 4112 = Throw OutOfRange /\
  write 4096 (initial 4096 4111) 4112 x41 = Throw OutOfRange.
Proof.
  apply (access_outside_window 4096 4111).
  - lia.
  - split; vm_compute; reflexivity.
  - unfold is_address. lia.
  - right. lia.
Defined.

Lemma write_frame_witness :
  exists m',
    write 4096 (initial 4096 4111) 4100 x41 = Ok m' /\
    (forall a', 4096 <= a' <= 4111 -> a' <> 4100 ->
       read 4096 m' a' = read 4096 (initial 4096 4111) a') /\
    column_count m' = column_count (initial 4096 4111) /\
    length (bytes m') = length (bytes (initial 4096 4111)) /\
    memory_inv 4096 4111 m'.
Proof.
  apply (write_frame 4096 4111).
  - lia.
  - split; vm_compute; reflexivity.
  - lia.
Defined.

(** C5 as stated fails: [rom.bin] exists and holds five bytes, one more than
    the 4-byte block takes, but the input stream does not open on it: the
    constructor returns a block of zeros, not the first four bytes of the
    file, and throws nothing.  And where [rom.bin] is a directory, the
    constructor throws the file-system error of [file_size], which is neither
    [NotFound] nor [SizeMismatch]. *)
Lemma memory_file_unopened_stream :
  ({[ "rom.bin" := Regular [x01; x02; x03; x04; x05] ]} : filesystem) !! "rom.bin"
    = Some (Regular [x01; x02; x03; x04; x05]) /\
  memory_file 4096 4099 (fun _ => false)
    {[ "rom.bin" := Regular [x01; x02; x03; x04; x05] ]} "rom.bin"
    = Ok (mk_memory 4 [x00; x00; x00; x00]) /\
  read 4096 (mk_memory 4 [x00; x00; x00; x00]) 4096 <> Ok x01 /\
  memory_file 4096 4099 (fun _ => true) {[ "rom.bin" := Directory ]} "rom.bin"
    = Throw FilesystemError.
Proof.
  split; [ apply lookup_singleton_eq | ].
  split; [ reflexivity | ].
  split; [ vm_compute; discriminate | reflexivity ].
Qed.

Lemma memory_file_outcomes_witness :
  memory_file 4096 4099 (fun p => negb (String.eqb p "locked.bin"))
    {[ "rom.bin" := Regular [x01; x02; x03; x04; x05] ]} "ram.bin"
    = Throw NotFound /\
  memory_file 4096 4099 (fun p => negb (String.eqb p "locked.bin"))
    {[ "rom.bin" := Directory ]} "rom.bin"
    = Throw FilesystemError /\
  memory_file 4096 4099 (fun p => negb (String.eqb p "locked.bin"))
    {[ "rom.bin" := Regular [x01; x02; x03] ]} "rom.bin"
    = Throw SizeMismatch /\
  (exists m,
    memory_file 4096 4099 (fun p => negb (String.eqb p "locked.bin"))
      {[ "rom.bin" := Regular [x01; x02; x03; x04; x05] ]} "rom.bin"
      = Ok m /\
    bytes m = [x01; x02; x03; x04] /\
    read 4096 m 4096 = Ok x01) /\
  memory_file 4096 4099 (fun p => negb (String.eqb p "locked.bin"))
    {[ "locked.bin" := Regular [x01; x02; x03; x04; x05] ]} "locked.bin"
    = Ok (initial 4096 4099).
Proof.
  set (opens := fun p => negb (String.eqb p "locked.bin")).
  assert (Hwin : 0 <= 4096 <= 4099 /\ 4099 < 65536) by lia.
  split; [ | split; [ | split; [ | split ] ] ].
  - destruct (memory_file_outcomes 4096 4099 Hwin opens
                {[ "rom.bin" := Regular [x01; x02; x03; x04; x05] ]} "ram.bin")
      as [Hmissing _].
    apply Hmissing. vm_compute. reflexivity.
  - destruct (memory_file_outcomes 4096 4099 Hwin opens
                {[ "rom.bin" := Directory ]} "rom.bin")
      as (_ & Hdir & _).
    apply Hdir. vm_compute. reflexivity.
  - destruct (memory_file_outcomes 4096 4099 Hwin opens
                {[ "rom.bin" := Regular [x01; x02; x03] ]} "rom.bin")
      as (_ & _ & Hshort & _).
    apply (Hshort [x01; x02; x03]); vm_compute; reflexivity.
  - destruct (memory_file_outcomes 4096 4099 Hwin opens
                {[ "rom.bin" := Regular [x01; x02; x03; x04; x05] ]} "rom.bin")
      as (_ & _ & _ & Hlong).
    destruct (Hlong [x01; x02; x03; x04; x05]) as [Hopen _].
    + vm_compute. reflexivity.
    + vm_compute. discriminate.
    + destruct Hopen as (m & Hm & _ & Hbytes & Hread).
      * vm_compute. reflexivity.
      * exists m. split; [ exact Hm | ]. split; [ exact Hbytes | ].
        apply (Hread O x01); vm_compute; reflexivity.
  - destruct (memory_file_outcomes 4096 4099 Hwin opens
                {[ "locked.bin" := Regular [x01; x02; x03; x04; x05] ]}
                "locked.bin")
      as (_ & _ & _ & Hlong).
    destruct (Hlong [x01; x02; x03; x04; x05]) as [_ Hshut].
    + vm_compute. reflexivity.
    + vm_compute. discriminate.
    + apply Hshut. vm_compute. reflexivity.
Defined.

Lemma dump_rows_format_witness :
  column_count (mk_memory 16 (replicate 32 x41)) = Z.min (size 4096 4127) 16 /\
  dump_paragraph 4096 (mk_memory 16 (replicate 32 x41)) 4112 EmptyString =
    (EmptyString +:+
     row_text 4112 (row_bytes 4096 (mk_memory 16 (replicate 32 x41)) 4112
                      (Z.to_nat (Z.min (size 4096 4127) 16))),
     Ok tt) /\
  exists (rows : list Z) (tail : string),
    fst (dump 4096 4127 (mk_memory 16 (replicate 32 x41)) 4096 4128 EmptyString) =
      EmptyString +:+
      concat_text
        (map (fun a => row_text a
                         (row_bytes 4096 (mk_memory 16 (replicate 32 x41)) a
                            (Z.to_nat (Z.min (size 4096 4127) 16))))
             rows) +:+ tail /\
    Forall (fun a => 4096 <= a /\ a + Z.min (size 4096 4127) 16 <= 4127 + 1) rows /\
    (snd (dump 4096 4127 (mk_memory 16 (replicate 32 x41)) 4096 4128 EmptyString)
       <> Throw OutOfRange -> tail = EmptyString).
Proof.
  destruct (dump_rows_format 4096 4127 ltac:(lia)
              (mk_memory 16 (replicate 32 x41)))
    as (Hcol & Hrow & Hdump).
  - apply (built_byte 4096 4127 x41). vm_compute. reflexivity.
  - split; [ exact Hcol | ]. split.
    + apply Hrow; vm_compute; discriminate.
    + apply (Hdump 4096 4128). unfold is_address. lia.
Defined.

(** ** Saving and loading across blocks *)

(** X10: Round trip: a span of a block saved to a fresh path and loaded by the
    file constructor of a block of exactly that many bytes gives a block
    that holds, at each offset, the byte the span held there, provided the
    output stream of [save] and the input stream of [load] open on the
    path. *)
Theorem save_then_memory_file (B1 E1 B2 E2 : Z) (opens_out opens_in : string -> bool)
    (m : memory) (filename : string) (begin end_ : Z) (fs : filesystem) :
  0 <= B1 <= E1 /\ E1 < 65536 ->
  0 <= B2 <= E2 /\ E2 < 65536 ->
  memory_inv B1 E1 m ->
  fs !! filename = None ->
  opens_out filename = true -> opens_in filename = true ->
  B1 <= begin -> begin <= end_ -> end_ <= E1 + 1 -> is_address end_ ->
  size B2 E2 = end_ - begin ->
  exists fs' m',
    save B1 E1 opens_out m filename begin end_ fs = (fs', Ok tt) /\
    memory_file B2 E2 opens_in fs' filename = Ok m' /\
    memory_inv B2 E2 m' /\
    forall k, 0 <= k < end_ - begin ->
      read B2 m' (B2 + k) = read B1 m (begin + k).
Proof.
  intros Hw1 Hw2 Hinv Hfresh Hout Hin Hlo Hle Hhi Hend Hsize.
  pose proof (size_window B1 E1 Hw1) as Hsize1.
  pose proof (size_window B2 E2 Hw2) as Hsize2.
  assert (Hlen : length (bytes m) = Z.to_nat (size B1 E1)) by apply Hinv.
  rewrite (save_fresh_span B1 E1 Hw1 opens_out m filename begin end_ fs)
    by assumption.
  set (data := take (Z.to_nat (end_ - begin))
                 (drop (Z.to_nat (begin - B1)) (bytes m))).
  assert (Hdata : Z.of_nat (length data) = size B2 E2).
  { subst data. rewrite length_take, length_drop. lia. }
  destruct (memory_file_exact B2 E2 Hw2 opens_in
              (<[filename := Regular data]> fs) filename data)
    as (m' & Hfile & Hbytes & Hinv');
    [ unfold filesystem in *; apply lookup_insert_eq | exact Hin | exact Hdata | ].
  exists (<[filename := Regular data]> fs), m'.
  split; [ reflexivity | ]. split; [ exact Hfile | ]. split; [ exact Hinv' | ].
  intros k Hk. unfold read, at_. rewrite Hbytes.
  rewrite !to_size_t_small by lia.
  replace (Z.to_nat (B2 + k - B2)) with (Z.to_nat k) by lia.
  subst data. rewrite lookup_take_lt by lia. rewrite lookup_drop.
  replace (Z.to_nat (begin - B1) + Z.to_nat k)%nat
    with (Z.to_nat (begin + k - B1)) by lia.
  reflexivity.
Qed.

Lemma save_then_memory_file_witness :
  exists fs' m',
    save 4096 4111 (fun p => negb (String.eqb p "nodir/x.bin"))
      (mk_memory 16 (replicate 16 x41)) "rom.bin" 4098 4102 (empty : filesystem)
      = (fs', Ok tt) /\
    memory_file 0 3 (fun p => negb (String.eqb p "locked.bin")) fs' "rom.bin"
      = Ok m' /\
    memory_inv 0 3 m' /\
    forall k, 0 <= k < 4102 - 4098 ->
      read 0 m' (0 + k) =
      read 4096 (mk_memory 16 (replicate 16 x41)) (4098 + k).
Proof.
  apply (save_then_memory_file 4096 4111 0 3).
  - lia.
  - lia.
  - split; vm_compute; reflexivity.
  - vm_compute. reflexivity.
  - vm_compute. reflexivity.
  - vm_compute. reflexivity.
  - lia.
  - lia.
  - lia.
  - unfold is_address. lia.
  - vm_compute. reflexivity.
Defined.

(** ** The further properties at concrete blocks *)

Lemma fill_keeps_outside_span_witness :
  memory_inv 4096 4111
    (fst (fill 4096 4111 xaa 4098 4102 (mk_memory 16 (replicate 16 x00)))) /\
  forall a, 4096 <= a <= 4111 -> ~ (4098 <= a < 4102) ->
    read 4096 (fst (fill 4096 4111 xaa 4098 4102
                      (mk_memory 16 (replicate 16 x00)))) a =
    read 4096 (mk_memory 16 (replicate 16 x00)) a.
Proof.
  apply (fill_keeps_outside_span 4096 4111).
  - lia.
  - split; vm_compute; reflexivity.
  - lia.
  - lia.
  - unfold is_address. lia.
Defined.

Lemma fill_prefix_witness :
  exists m',
    fill 4096 4111 xaa 4096 4100 (mk_memory 16 (replicate 16 x00)) = (m', Ok tt) /\
    memory_inv 4096 4111 m' /\
    forall a, 4096 <= a <= 4111 ->
      read 4096 m' a =
        if decide (a < 4100) then Ok xaa
        else read 4096 (mk_memory 16 (replicate 16 x00)) a.
Proof.
  apply (fill_prefix 4096 4111).
  - lia.
  - split; vm_compute; reflexivity.
  - lia.
  - unfold is_address. lia.
Defined.

Lemma memory_byte_all_witness :
  exists m,
    memory_byte 4096 4111 xff = Ok m /\
    memory_inv 4096 4111 m /\
    forall a, 4096 <= a <= 4111 -> read 4096 m a = Ok xff.
Proof.
  apply (memory_byte_all 4096 4111).
  - lia.
  - vm_compute. reflexivity.
Defined.

Lemma randomize_within_witness :
  exists m',
    randomize 4096 4111 (fun k => Z.abs k + 300) 65 90
      (mk_memory 16 (replicate 16 x00)) = (m', Ok tt) /\
    memory_inv 4096 4111 m' /\
    forall a, 4096 <= a <= 4111 ->
      exists b, read 4096 m' a = Ok b /\ 65 <= byte_val b <= 90.
Proof.
  apply (randomize_within 4096 4111).
  - lia.
  - split; vm_compute; reflexivity.
  - lia.
  - lia.
  - lia.
  - intros k. lia.
Defined.

Lemma memory_random_all_witness :
  exists m,
    memory_random 4096 4111 (fun k => Z.abs k + 300) = Ok m /\
    memory_inv 4096 4111 m /\
    forall k, 0 <= k < size 4096 4111 ->
      read 4096 m (4096 + k) = Ok (to_byte ((Z.abs k + 300) mod 256)).
Proof.
  apply (memory_random_all 4096 4111). lia.
Defined.

Lemma reversed_span_overflow_witness :
  dump 4096 4111 (mk_memory 16 (replicate 16 x41)) 4104 4100 EmptyString =
    (EmptyString, Throw Overflow) /\
  save 4096 4111 (fun _ => true) (mk_memory 16 (replicate 16 x41)) "rom.bin"
       4104 4100 (empty : filesystem) =
    ((empty : filesystem), Throw Overflow).
Proof.
  apply (reversed_span_overflow 4096 4111).
  - lia.
  - unfold is_address. lia.
  - unfold is_address. lia.
  - lia.
Defined.

Lemma load_all_or_nothing_witness :
  fst (load 4096 4099 (fun p => negb (String.eqb p "locked.bin"))
         {[ "rom.bin" := Regular [x01; x02; x03] ]} "rom.bin"
         (mk_memory 4 (replicate 4 x41))) = mk_memory 4 (replicate 4 x41) /\
  (exists m',
    load 4096 4099 (fun p => negb (String.eqb p "locked.bin"))
      {[ "rom.bin" := Regular [x01; x02; x03; x04; x05] ]} "rom.bin"
      (mk_memory 4 (replicate 4 x41)) = (m', Ok tt) /\
    read 4096 m' 4099 = Ok x04) /\
  load 4096 4099 (fun p => negb (String.eqb p "locked.bin"))
    {[ "locked.bin" := Regular [x01; x02; x03; x04; x05] ]} "locked.bin"
    (mk_memory 4 (replicate 4 x41)) = (mk_memory 4 (replicate 4 x41), Ok tt).
Proof.
  set (opens := fun p => negb (String.eqb p "locked.bin")).
  assert (Hwin : 0 <= 4096 <= 4099 /\ 4099 < 65536) by lia.
  assert (Hinv : memory_inv 4096 4099 (mk_memory 4 (replicate 4 x41)))
    by (split; vm_compute; reflexivity).
  split; [ | split ].
  - destruct (load_all_or_nothing 4096 4099 Hwin opens
                {[ "rom.bin" := Regular [x01; x02; x03] ]} "rom.bin"
                (mk_memory 4 (replicate 4 x41)) Hinv) as [Hfail _].
    apply Hfail. vm_compute. discriminate.
  - destruct (load_all_or_nothing 4096 4099 Hwin opens
                {[ "rom.bin" := Regular [x01; x02; x03; x04; x05] ]} "rom.bin"
                (mk_memory 4 (replicate 4 x41)) Hinv) as [_ Hload].
    destruct (Hload [x01; x02; x03; x04; x05]) as [Hopen _].
    + vm_compute. reflexivity.
    + vm_compute. discriminate.
    + destruct Hopen as (m' & Hrun & _ & _ & Hread).
      * vm_compute. reflexivity.
      * exists m'. split; [ exact Hrun | ].
        apply (Hread 3%nat x04); vm_compute; reflexivity.
  - destruct (load_all_or_nothing 4096 4099 Hwin opens
                {[ "locked.bin" := Regular [x01; x02; x03; x04; x05] ]}
                "locked.bin" (mk_memory 4 (replicate 4 x41)) Hinv) as [_ Hload].
    destruct (Hload [x01; x02; x03; x04; x05]) as [_ Hshut].
    + vm_compute. reflexivity.
    + vm_compute. discriminate.
    + apply Hshut. vm_compute. reflexivity.
Defined.


Lemma save_then_save_witness :
  (exists e,
     save 4096 4111 (fun p => negb (String.eqb p "nodir/x.bin"))
       (mk_memory 16 (replicate 16 x42)) "ram.bin" 4096 4112
       (<[ "ram.bin" := Regular [x41; x41] ]> (empty : filesystem)) =
       (<[ "ram.bin" := Regular [x41; x41] ]> (empty : filesystem), Throw e) /\
     (e = AlreadyExists \/ e = Overflow)) /\
  save 4096 4111 (fun p => negb (String.eqb p "nodir/x.bin"))
    (mk_memory 16 (replicate 16 x41)) "nodir/x.bin" 4098 4100
    (empty : filesystem) = ((empty : filesystem), Ok tt).
Proof.
  set (opens := fun p => negb (String.eqb p "nodir/x.bin")).
  assert (Hshut : save 4096 4111 opens (mk_memory 16 (replicate 16 x41))
                    "nodir/x.bin" 4098 4100 (empty : filesystem) =
                  ((empty : filesystem), Ok tt)) by (vm_compute; reflexivity).
  split; [ | exact Hshut ].
  destruct (save_then_save 4096 4111 opens
              (mk_memory 16 (replicate 16 x41))
              (mk_memory 16 (replicate 16 x42)) "ram.bin" 4098 4100 4096 4112
              (empty : filesystem)
              (<[ "ram.bin" := Regular [x41; x41] ]> (empty : filesystem)))
    as [Hopen _].
  - vm_compute. reflexivity.
  - apply Hopen. vm_compute. reflexivity.
Defined.

Lemma dump_last_row_outside_witness :
  snd (dump 4096 4115 (mk_memory 16 (replicate 20 x41)) 4096 4116 EmptyString)
    = Throw OutOfRange /\
  exists tail,
    fst (dump 4096 4115 (mk_memory 16 (replicate 20 x41)) 4096 4116 EmptyString) =
      EmptyString +:+
      concat_text
        (map (fun a => row_text a
                         (row_bytes 4096 (mk_memory 16 (replicate 20 x41)) a
                            (Z.to_nat (Z.min (size 4096 4115) 16))))
             (row_addresses 4096 (Z.to_nat ((4116 - 4096 + 15) / 16) - 1)))
      +:+ tail.
Proof.
  apply (dump_last_row_outside 4096 4115).
  - lia.
  - apply (built_byte 4096 4115 x41). vm_compute. reflexivity.
  - lia.
  - lia.
  - lia.
  - unfold is_address. lia.
  - vm_compute. reflexivity.
Defined.

Lemma main_output_witness :
  exists rom,
    memory_random 4096 12287 (fun k => k) = Ok rom /\
    main 4096 12287 (fun k => k) (fun _ => EmptyString) EmptyString =
      (EmptyString +:+ "Z80 Emulator" +:+ newline +:+
       decimal (size 4096 12287) +:+ " bytes" +:+ newline +:+
       concat_text
         (map (fun a => row_text a (row_bytes 4096 rom a 16))
              (row_addresses 4096 (Z.to_nat (size 4096 12287 / 16)))),
       Ok 0) /\
    decimal (size 4096 12287) = "8192"%string /\
    Z.to_nat (size 4096 12287 / 16) = 512%nat.
Proof.
  destruct (main_output 4096 12287 ltac:(lia) (fun k => k)
              (fun _ => EmptyString) EmptyString) as (rom & Hrom & Hmain).
  - vm_compute. reflexivity.
  - lia.
  - exists rom. split; [ exact Hrom | ]. split; [ exact Hmain | ].
    split; vm_compute; reflexivity.
Defined.

Lemma legacy_fill_exact_witness :
  exists m',
    Legacy.fill 4096 4098 4102 xaa (Legacy.mk_memory (replicate 16 x00))
      = (m', Ok tt) /\
    Legacy.size m' = Legacy.size (Legacy.mk_memory (replicate 16 x00)) /\
    forall a, 4096 <= a <= 4111 ->
      Legacy.read 4096 m' a =
        if decide (4098 <= a < 4102) then Ok xaa
        else Legacy.read 4096 (Legacy.mk_memory (replicate 16 x00)) a.
Proof.
  apply (legacy_fill_exact 4096 4111).
  - lia.
  - vm_compute. reflexivity.
  - lia.
  - lia.
  - lia.
  - unfold is_address. lia.
Defined.

Lemma legacy_memory_random_below_ff_witness :
  exists m,
    Legacy.memory_random 4096 4111 (fun k => Z.abs k + 254) = Ok m /\
    Legacy.size m = size 4096 4111 /\
    forall a, 4096 <= a <= 4111 ->
      exists b, Legacy.read 4096 m a = Ok b /\
                b = to_byte ((Z.abs (a - 4096) + 254) mod 255) /\
                byte_val b <= 254.
Proof.
  apply (legacy_memory_random_below_ff 4096 4111).
  - lia.
  - intros k. lia.
Defined.

Lemma legacy_dump_small_block_witness :
  snd (Legacy.dump_paragraph 4096 (Legacy.mk_memory (replicate 8 x41)) 4096
         EmptyString) = Throw OutOfRange /\
  snd (Legacy.dump 4096 (Legacy.mk_memory (replicate 8 x41)) 4096 4104
         EmptyString) = Throw OutOfRange.
Proof.
  apply (legacy_dump_small_block 4096 4103).
  - vm_compute. reflexivity.
  - vm_compute. reflexivity.
  - unfold is_address. lia.
  - lia.
Defined.

Lemma legacy_memory_file_outcomes_witness :
  Legacy.memory_file 4096 4099 (fun data => data)
    {[ "rom.bin" := [x01; x02] ]} "ram.bin" EmptyString =
    (EmptyString, Throw NotFound) /\
  Legacy.memory_file 4096 4099 (fun data => data)
    {[ "rom.bin" := [x01; x02; x03; x04; x05] ]} "rom.bin" EmptyString =
    (EmptyString, Throw SizeMismatch) /\
  exists m,
    Legacy.memory_file 4096 4099 (fun data => data)
      {[ "rom.bin" := [x01; x02] ]} "rom.bin" EmptyString =
      (EmptyString +:+ decimal (Z.of_nat (length [x01; x02])) +:+ newline, Ok m) /\
    Legacy.read 4096 m 4097 = Ok x02 /\
    Legacy.read 4096 m 4098 = Ok x00.
Proof.
  assert (Hwin : 0 <= 4096 <= 4099 /\ 4099 < 65536) by lia.
  split; [ | split ].
  - destruct (legacy_memory_file_outcomes 4096 4099 Hwin (fun data => data)
                {[ "rom.bin" := [x01; x02] ]} "ram.bin" EmptyString)
      as [Hmissing _].
    apply Hmissing. vm_compute. reflexivity.
  - destruct (legacy_memory_file_outcomes 4096 4099 Hwin (fun data => data)
                {[ "rom.bin" := [x01; x02; x03; x04; x05] ]} "rom.bin" EmptyString)
      as (_ & Hlong & _).
    apply (Hlong [x01; x02; x03; x04; x05]); vm_compute; reflexivity.
  - destruct (legacy_memory_file_outcomes 4096 4099 Hwin (fun data => data)
                {[ "rom.bin" := [x01; x02] ]} "rom.bin" EmptyString)
      as (_ & _ & Hshort).
    destruct (Hshort [x01; x02]) as (m & Hrun & _ & Hread).
    + vm_compute. reflexivity.
    + vm_compute. discriminate.
    + cbn. lia.
    + vm_compute. reflexivity.
    + exists m. split; [ exact Hrun | ]. split.
      * apply (Hread 1%nat). vm_compute. reflexivity.
      * apply (Hread 2%nat). vm_compute. reflexivity.
Defined.

Lemma write_write_witness :
  exists m1 m2 m12 m21,
    write 4096 (mk_memory 16 (replicate 16 x00)) 4100 x41 = Ok m1 /\
    write 4096 m1 4101 x42 = Ok m12 /\
    write 4096 (mk_memory 16 (replicate 16 x00)) 4101 x42 = Ok m2 /\
    write 4096 m2 4100 x41 = Ok m21 /\
    (4100 <> 4101 -> m12 = m21) /\
    (4100 = 4101 -> m12 = m2).
Proof.
  apply (write_write 4096 4111).
  - lia.
  - split; vm_compute; reflexivity.
  - lia.
  - lia.
Defined.
